(** * Remote file manager: a shallow embedding and its properties

    The development follows [src/agent_core/env_components/file_manager.py].
    [FileManager] drives a command channel (the injected [CommandExecutor]):
    every operation builds shell command lines, sends them through the
    channel, and classifies the returned [(output, exit_code)] pair.

    - [Py]          the Python string primitives the source relies on;
    - [Base64]      [base64.b64encode] and the decoder of [base64 -d];
    - [FileManager] the five operations, over an arbitrary channel;
    - [Shell]       a reference channel: a small POSIX shell over a flat
                    file system, with the utilities the commands name;
    - the theorems.

    A Python [str] is represented by the bytes of its UTF-8 encoding, held in
    a [string]; [content.encode('utf-8')] is then the identity, and the ASCII
    patterns the source searches for behave on bytes as on code points. *)

From Stdlib Require Import ZArith NArith Lia List Ascii String.
From Stdlib Require Import Decimal DecimalString DecimalZ DecimalPos.
From stdpp Require Import base option list gmap strings.

Local Open Scope Z_scope.

(* ================================================================== *)
(** * Python string primitives *)
(* ================================================================== *)

Module Py.

Definition LF : string := String (ascii_of_nat 10) EmptyString.
Definition TAB : string := String (ascii_of_nat 9) EmptyString.

(** [sub in s] *)
Fixpoint contains (sub s : string) : bool :=
  String.prefix sub s ||
  match s with
  | EmptyString => false
  | String _ s' => contains sub s'
  end.

(** [s.replace(old, new)] for a non-empty [old]: occurrences are replaced
    left to right and never overlap; [skip] counts the characters of the
    current occurrence still to be dropped. *)
Fixpoint replace_from (old new : string) (skip : nat) (s : string) : string :=
  match s with
  | EmptyString => EmptyString
  | String c s' =>
      match skip with
      | S k => replace_from old new k s'
      | O =>
          if String.prefix old s
          then new +:+ replace_from old new (String.length old - 1) s'
          else String c (replace_from old new 0 s')
      end
  end.

(** [s.replace('', new)] puts [new] before every character and at the end. *)
Fixpoint replace_empty (new s : string) : string :=
  match s with
  | EmptyString => new
  | String c s' => new +:+ String c (replace_empty new s')
  end.

Definition replace (old new s : string) : string :=
  match old with
  | EmptyString => replace_empty new s
  | String _ _ => replace_from old new 0 s
  end.

(** [sep.join(l)] *)
Fixpoint join (sep : string) (l : list string) : string :=
  match l with
  | [] => EmptyString
  | x :: l' =>
      match l' with
      | [] => x
      | _ :: _ => x +:+ sep +:+ join sep l'
      end
  end.

(** [str(n)] and [f"{n}"] for an [int] *)
Definition str (n : Z) : string := NilZero.string_of_int (Z.to_int n).

(** The whitespace of [str.strip] and [str.split] is the set of characters
    for which [str.isspace] holds. In UTF-8 these are one, two or three
    bytes long:
    - one byte: U+0009 to U+000D, U+001C to U+001F and U+0020;
    - two bytes: U+0085 and U+00A0 ([C2 85], [C2 A0]);
    - three bytes: U+1680 ([E1 9A 80]), U+2000 to U+200A ([E2 80 80] to
      [E2 80 8A]), U+2028, U+2029 and U+202F ([E2 80 A8], [E2 80 A9],
      [E2 80 AF]), U+205F ([E2 81 9F]) and U+3000 ([E3 80 80]). *)
Definition isspace (c : ascii) : bool :=
  let n := N_of_ascii c in
  ((9 <=? n) && (n <=? 13) || (28 <=? n) && (n <=? 32))%N.

Definition space2 (a b : ascii) : bool :=
  let x := N_of_ascii a in
  let y := N_of_ascii b in
  ((x =? 194) && ((y =? 133) || (y =? 160)))%N.

Definition space3 (a b c : ascii) : bool :=
  let x := N_of_ascii a in
  let y := N_of_ascii b in
  let z := N_of_ascii c in
  ((x =? 225) && (y =? 154) && (z =? 128)
   || (x =? 226) && (y =? 128)
      && ((128 <=? z) && (z <=? 138) || (z =? 168) || (z =? 169) || (z =? 175))
   || (x =? 226) && (y =? 129) && (z =? 159)
   || (x =? 227) && (y =? 128) && (z =? 128))%N.

(** The number of bytes of the whitespace character that [s] starts with;
    0 when [s] does not start with one. *)
Definition space_width (s : string) : nat :=
  match s with
  | EmptyString => 0
  | String a r =>
      if isspace a then 1
      else
        match r with
        | EmptyString => 0
        | String b r' =>
            if space2 a b then 2
            else
              match r' with
              | EmptyString => 0
              | String c _ => if space3 a b c then 3 else 0
              end
        end
  end.

Fixpoint lstrip (s : string) : string :=
  match s with
  | EmptyString => EmptyString
  | String a r =>
      if isspace a then lstrip r
      else
        match r with
        | EmptyString => s
        | String b r' =>
            if space2 a b then lstrip r'
            else
              match r' with
              | EmptyString => s
              | String c r'' => if space3 a b c then lstrip r'' else s
              end
        end
  end.

(** A text is stripped on the right up to its last character that is not
    whitespace: from a place on, all is whitespace. *)
Fixpoint rstrip (s : string) : string :=
  match s with
  | EmptyString => EmptyString
  | String c s' =>
      if String.eqb (lstrip s) EmptyString then EmptyString
      else String c (rstrip s')
  end.

(** [s.strip()] *)
Definition strip (s : string) : string := rstrip (lstrip s).

(** The longest prefix without whitespace, and what follows it. *)
Fixpoint take_word (s : string) : string * string :=
  match s with
  | EmptyString => (EmptyString, EmptyString)
  | String c s' =>
      match space_width s with
      | S _ => (EmptyString, s)
      | O => let '(w, r) := take_word s' in (String c w, r)
      end
  end.

(** [s.split(maxsplit=n)]: CPython's loop runs at most [n] times, each
    round skipping whitespace and cutting one word; what is left after the
    last round, without its leading whitespace, is the final field. *)
Fixpoint split (maxsplit : nat) (s : string) : list string :=
  match lstrip s with
  | EmptyString => []
  | String _ _ as r =>
      match maxsplit with
      | O => [r]
      | S k => let '(w, rest) := take_word r in w :: split k rest
      end
  end.

(** [l[i]] for an index known to be in range; the default is never read
    where the source guards the access with [len(l) >= 5]. *)
Definition item (l : list string) (i : nat) : string := nth i l EmptyString.

Definition slash : ascii := ascii_of_nat 47.

(** The text up to and including the last ['/'] of [p] ([p[:p.rfind('/')+1]]). *)
Fixpoint upto_last_slash (p : string) : string :=
  match p with
  | EmptyString => EmptyString
  | String c p' =>
      match upto_last_slash p' with
      | EmptyString => if Ascii.eqb c slash then String c EmptyString else EmptyString
      | String _ _ as h => String c h
      end
  end.

Fixpoint all_slashes (s : string) : bool :=
  match s with
  | EmptyString => true
  | String c s' => Ascii.eqb c slash && all_slashes s'
  end.

(** [head.rstrip('/')] *)
Fixpoint rstrip_slash (s : string) : string :=
  match s with
  | EmptyString => EmptyString
  | String c s' =>
      match rstrip_slash s' with
      | EmptyString => if Ascii.eqb c slash then EmptyString else String c EmptyString
      | String _ _ as r => String c r
      end
  end.

(** [os.path.dirname(p)] of [posixpath] *)
Definition dirname (p : string) : string :=
  let head := upto_last_slash p in
  if negb (String.eqb head EmptyString) && negb (all_slashes head)
  then rstrip_slash head
  else head.

End Py.

(* ================================================================== *)
(** * Base64 (RFC 4648, standard alphabet, with padding) *)
(* ================================================================== *)

Module Base64.

Local Open Scope N_scope.

(** The character of a 6-bit value. *)
Definition char_of (v : N) : ascii :=
  if v <? 26 then ascii_of_N (65 + v)
  else if v <? 52 then ascii_of_N (97 + (v - 26))
  else if v <? 62 then ascii_of_N (48 + (v - 52))
  else if v =? 62 then ascii_of_N 43
  else ascii_of_N 47.

(** The 6-bit value of a character of the alphabet. *)
Definition value_of (c : ascii) : option N :=
  let n := N_of_ascii c in
  if (65 <=? n) && (n <=? 90) then Some (n - 65)
  else if (97 <=? n) && (n <=? 122) then Some (n - 97 + 26)
  else if (48 <=? n) && (n <=? 57) then Some (n - 48 + 52)
  else if n =? 43 then Some 62
  else if n =? 47 then Some 63
  else None.

Definition pad : ascii := ascii_of_N 61.

(** [base64.b64encode(bs).decode('ascii')]: three bytes make four
    characters; one or two trailing bytes are zero-filled and padded. *)
Fixpoint b64encode (bs : string) : string :=
  match bs with
  | EmptyString => EmptyString
  | String a EmptyString =>
      let n := N.shiftl (N_of_ascii a) 16 in
      String (char_of (N.shiftr n 18))
        (String (char_of (N.land (N.shiftr n 12) 63))
           (String pad (String pad EmptyString)))
  | String a (String b EmptyString) =>
      let n := N.lor (N.shiftl (N_of_ascii a) 16) (N.shiftl (N_of_ascii b) 8) in
      String (char_of (N.shiftr n 18))
        (String (char_of (N.land (N.shiftr n 12) 63))
           (String (char_of (N.land (N.shiftr n 6) 63))
              (String pad EmptyString)))
  | String a (String b (String c rest)) =>
      let n := N.lor (N.lor (N.shiftl (N_of_ascii a) 16)
                            (N.shiftl (N_of_ascii b) 8)) (N_of_ascii c) in
      String (char_of (N.shiftr n 18))
        (String (char_of (N.land (N.shiftr n 12) 63))
           (String (char_of (N.land (N.shiftr n 6) 63))
              (String (char_of (N.land n 63)) (b64encode rest))))
  end.

Definition byte_of (n : N) : ascii := ascii_of_N (N.land n 255).

(** The decoder of [base64 -d], on text without line breaks: groups of four
    characters, padding only in the last group, no stray bits. *)
Fixpoint b64decode (s : string) : option string :=
  match s with
  | EmptyString => Some EmptyString
  | String c1 (String c2 (String c3 (String c4 rest))) =>
      match value_of c1, value_of c2 with
      | Some v1, Some v2 =>
          if Ascii.eqb c4 pad then
            match rest with
            | EmptyString =>
                if Ascii.eqb c3 pad then
                  if N.land v2 15 =? 0
                  then Some (String (byte_of (N.lor (N.shiftl v1 2) (N.shiftr v2 4)))
                               EmptyString)
                  else None
                else
                  match value_of c3 with
                  | Some v3 =>
                      if N.land v3 3 =? 0
                      then Some (String (byte_of (N.lor (N.shiftl v1 2) (N.shiftr v2 4)))
                                   (String (byte_of (N.lor (N.shiftl v2 4) (N.shiftr v3 2)))
                                      EmptyString))
                      else None
                  | None => None
                  end
            | String _ _ => None
            end
          else
            match value_of c3, value_of c4, b64decode rest with
            | Some v3, Some v4, Some tail =>
                Some (String (byte_of (N.lor (N.shiftl v1 2) (N.shiftr v2 4)))
                        (String (byte_of (N.lor (N.shiftl v2 4) (N.shiftr v3 2)))
                           (String (byte_of (N.lor (N.shiftl v3 6) v4)) tail)))
            | _, _, _ => None
            end
      | _, _ => None
      end
  | _ => None
  end.

End Base64.

(* ================================================================== *)
(** * The file manager, over an arbitrary command channel *)
(* ================================================================== *)

Module FileManager.

(** What an operation sees of the remote side: the state of the channel's
    world, and the command lines sent so far (oldest first). *)
Record session (World : Type) : Type := Session {
  world : World;
  issued : list string
}.
Arguments Session {World} _ _.
Arguments world {World} _.
Arguments issued {World} _.

(** An operation awaits its commands one after the other: a state
    transformer over the session. *)
Definition M (World A : Type) : Type := session World → A * session World.

Definition ret {World A : Type} (a : A) : M World A := fun s => (a, s).

Definition bind {World A B : Type} (m : M World A) (k : A → M World B)
  : M World B :=
  fun s => let '(a, s') := m s in k a s'.

Declare Scope fm_scope.
Delimit Scope fm_scope with fm.
Notation "'let*' p ':=' m 'in' k" := (bind m (fun p => k))
  (at level 10, p pattern, m at level 200, k at level 200) : fm_scope.

(** The markers looked for in command output. *)
Definition no_such_file : string := "No such file or directory".
Definition cannot_open : string := "cannot open".
Definition no_matches : string := "No matches found".
Definition not_found : string := "not_found".

(** An edit of [multi_edit_file]: [(old_string, new_string, replace_all)]. *)
Definition edit : Type := string * string * bool.

Section Operations.

Context {World : Type}.

(** [CommandExecutor.execute(cmd, timeout)] *)
Variable execute : string → Z → World → (string * Z) * World.

Local Open Scope fm_scope.

Definition _run_command (cmd : string) (timeout : Z) : M World (string * Z) :=
  fun s =>
    let '(r, w') := execute cmd timeout (world s) in
    (r, Session w' (issued s ++ [cmd])).

(** The command line of [read_file]. *)
Definition read_cmd (file_path : string) (offset limit : option Z) : string :=
  match offset, limit with
  | Some o, Some l =>
      "tail -n +" +:+ Py.str o +:+ " '" +:+ file_path +:+ "' 2>&1 | head -n "
        +:+ Py.str l +:+ " | nl -ba -v " +:+ Py.str o
  | None, Some l =>
      "head -n " +:+ Py.str l +:+ " '" +:+ file_path +:+ "' 2>&1 | nl -ba"
  | _, None =>
      "nl -ba '" +:+ file_path +:+ "' 2>&1"
  end.

Definition read_file (file_path : string) (offset limit : option Z)
  : M World (string * bool) :=
  let cmd := read_cmd file_path offset limit in
  let* (output, code) := _run_command cmd 30 in
  if Py.contains no_such_file output || Py.contains cannot_open output
  then ret ("File not found: " +:+ file_path, true)
  else if negb (code =? 0) && negb (String.eqb output "")
  then ret ("Error reading file: " +:+ output, true)
  else ret (output, false).

Definition mkdir_cmd (dir_path : string) : string :=
  "mkdir -p '" +:+ dir_path +:+ "'".

Definition write_cmd (file_path content : string) : string :=
  let encoded_content := Base64.b64encode content in
  "echo '" +:+ encoded_content +:+ "' | base64 -d > '" +:+ file_path +:+ "'".

Definition write_file (file_path content : string) : M World (string * bool) :=
  let dir_path := Py.dirname file_path in
  let* _ :=
    (if negb (String.eqb dir_path "")
     then let* _ := _run_command (mkdir_cmd dir_path) 30 in ret tt
     else ret tt) in
  let* (output, code) := _run_command (write_cmd file_path content) 30 in
  if negb (code =? 0)
  then ret ("Error writing file: " +:+ output, true)
  else ret ("Successfully wrote to " +:+ file_path, false).

Definition escape_for_sed (s : string) : string :=
  let s := Py.replace "\" "\\" s in
  let s := Py.replace "/" "\/" s in
  let s := Py.replace "." "\." s in
  let s := Py.replace "*" "\*" s in
  let s := Py.replace "[" "\[" s in
  let s := Py.replace "]" "\]" s in
  let s := Py.replace "^" "\^" s in
  let s := Py.replace "$" "\$" s in
  let s := Py.replace "&" "\&" s in
  s.

Definition probe_cmd (file_path : string) : string :=
  "cp '" +:+ file_path +:+ "' '" +:+ file_path +:+ ".bak' 2>&1".

Definition backup_cmd (file_path : string) : string :=
  "cp '" +:+ file_path +:+ "' '" +:+ file_path +:+ ".bak'".

Definition sed_cmd (file_path old_string new_string : string)
    (replace_all : bool) : string :=
  let escaped_old := escape_for_sed old_string in
  let escaped_new := escape_for_sed new_string in
  if replace_all
  then "sed -i 's/" +:+ escaped_old +:+ "/" +:+ escaped_new +:+ "/g' '"
         +:+ file_path +:+ "'"
  else "sed -i '0,/" +:+ escaped_old +:+ "/s//" +:+ escaped_new +:+ "/' '"
         +:+ file_path +:+ "'".

Definition cleanup_cmd (file_path : string) : string :=
  "rm -f '" +:+ file_path +:+ ".bak'".

Definition edit_file (file_path old_string new_string : string)
    (replace_all : bool) : M World (string * bool) :=
  let* (output, code) := _run_command (probe_cmd file_path) 30 in
  if Py.contains no_such_file output || negb (code =? 0)
  then ret ("File not found: " +:+ file_path, true)
  else
    let* _ := _run_command (backup_cmd file_path) 30 in
    let* (output, code) :=
      _run_command (sed_cmd file_path old_string new_string replace_all) 30 in
    let* _ := _run_command (cleanup_cmd file_path) 30 in
    if negb (code =? 0)
    then ret ("Error editing file: " +:+ output, true)
    else ret ("Successfully replaced "
                +:+ (if replace_all then "all occurrences" else "first occurrence")
                +:+ " in " +:+ file_path, false).

(** The loop of [multi_edit_file]: [i] is the index [enumerate] gives to
    the head of [edits], [results] the lines appended so far. *)
Fixpoint multi_edit_loop (file_path : string) (i : Z) (edits : list edit)
    (results : list string) : M World (string * bool) :=
  match edits with
  | [] => ret (Py.join Py.LF results, false)
  | (old_string, new_string, replace_all) :: edits' =>
      let* (result, is_error) := edit_file file_path old_string new_string replace_all in
      if is_error && negb (Py.contains no_matches result)
      then ret ("Error on edit " +:+ Py.str (i + 1) +:+ ": " +:+ result, true)
      else multi_edit_loop file_path (i + 1) edits'
             (results ++ ["Edit " +:+ Py.str (i + 1) +:+ ": " +:+ result])
  end.

Definition multi_edit_file (file_path : string) (edits : list edit)
  : M World (string * bool) :=
  multi_edit_loop file_path 0 edits [].

Definition stat_cmd (file_path : string) : string :=
  Py.LF +:+
  "            if [ -e '" +:+ file_path +:+ "' ]; then" +:+ Py.LF +:+
  "                stat -c '%s %Y %U:%G %a' '" +:+ file_path
    +:+ "' 2>/dev/null || stat -f '%z %m %Su:%Sg %Lp' '" +:+ file_path +:+ "'"
    +:+ Py.LF +:+
  "                echo -n ' '" +:+ Py.LF +:+
  "                file -b '" +:+ file_path +:+ "' 2>/dev/null || echo 'unknown'"
    +:+ Py.LF +:+
  "            else" +:+ Py.LF +:+
  "                echo 'not_found'" +:+ Py.LF +:+
  "            fi" +:+ Py.LF +:+
  "            ".

(** The block one path contributes to the report, from the output of its
    probe (the body of the loop of [get_metadata] after the command). *)
Definition metadata_block (file_path output : string) : string :=
  if Py.contains not_found output
  then file_path +:+ ": Not found"
  else
    let parts := Py.split 4 (Py.strip output) in
    if (5 <=? length parts)%nat
    then
      let size := Py.item parts 0 in
      let mtime := Py.item parts 1 in
      let owner := Py.item parts 2 in
      let perms := Py.item parts 3 in
      let filetype := Py.join " " (drop 4 parts) in
      file_path +:+ ":" +:+ Py.LF +:+ "  Size: " +:+ size +:+ " bytes" +:+ Py.LF
        +:+ "  Type: " +:+ filetype +:+ Py.LF +:+ "  Owner: " +:+ owner +:+ Py.LF
        +:+ "  Permissions: " +:+ perms
    else file_path +:+ ": Unable to get metadata".

Fixpoint metadata_loop (file_paths : list string) (results : list string)
  : M World (string * bool) :=
  match file_paths with
  | [] => ret (Py.join (Py.LF +:+ Py.LF) results, false)
  | file_path :: file_paths' =>
      let* (output, _) := _run_command (stat_cmd file_path) 30 in
      metadata_loop file_paths' (results ++ [metadata_block file_path output])
  end.

Definition get_metadata (file_paths : list string) : M World (string * bool) :=
  metadata_loop (take 10 file_paths) [].

End Operations.

End FileManager.

(* ================================================================== *)
(** * A reference channel: a small shell over a flat file system *)
(* ================================================================== *)

(** The channel is not part of the file manager; to state what the commands
    achieve on the remote side, this module interprets the fragment of the
    shell language the file manager writes: simple commands with
    single-quoted words, pipelines, [2>&1] and [> file], and the utilities
    [echo], [base64 -d], [nl -ba], [head -n], [tail -n +K], [cp], [rm -f],
    [mkdir -p] and [sed -i] (substitutions of fixed texts) with their
    POSIX/GNU behaviour on text. Files are kept by path
    in a finite map: a file is known by the text of its path, there are no
    links, and a directory is there when a file lies below it (directories
    are not tracked on their own). A command outside the fragment is not
    interpreted ([run] gives [None]). *)

Module Shell.

Import Py.

(** ** Text utilities *)

(** The lines of a text; a final line needs no terminating newline. *)
Fixpoint lines (s : string) : list string :=
  match s with
  | EmptyString => []
  | String c s' =>
      if Ascii.eqb c "010" then EmptyString :: lines s'
      else match lines s' with
           | [] => [String c EmptyString]
           | l :: ls => String c l :: ls
           end
  end.

(** [head -n n]: the text up to the end of its [n]-th line. *)
Fixpoint head_lines (n : nat) (s : string) : string :=
  match s with
  | EmptyString => EmptyString
  | String c s' =>
      match n with
      | O => EmptyString
      | S n' => String c (head_lines (if Ascii.eqb c "010" then n' else n) s')
      end
  end.

(** [tail -n +K] with [K = k + 1]: the text after its first [k] lines. *)
Fixpoint drop_lines (k : nat) (s : string) : string :=
  match k with
  | O => s
  | S k' =>
      match s with
      | EmptyString => EmptyString
      | String c s' => drop_lines (if Ascii.eqb c "010" then k' else k) s'
      end
  end.

Fixpoint spaces (n : nat) : string :=
  match n with
  | O => EmptyString
  | S n' => String " " (spaces n')
  end.

(** [printf "%6d"] *)
Definition pad6 (n : Z) : string :=
  let d := str n in spaces (6 - String.length d) +:+ d.

(** The logical-page sections of [nl]; a line that is exactly one of the
    delimiters switches section and is printed as an empty line. *)
Inductive nl_section : Type := NlHeader | NlBody | NlFooter.

Definition nl_delimiter (line : string) : option nl_section :=
  if String.eqb line "\:\:\:" then Some NlHeader
  else if String.eqb line "\:\:" then Some NlBody
  else if String.eqb line "\:" then Some NlFooter
  else None.

(** [nl -ba -v start]: body lines are all numbered, header and footer lines
    are not; numbering restarts with each section. *)
Fixpoint nl_render (sec : nl_section) (start n : Z) (ls : list string) : string :=
  match ls with
  | [] => EmptyString
  | l :: ls' =>
      match nl_delimiter l with
      | Some sec' => LF +:+ nl_render sec' start start ls'
      | None =>
          match sec with
          | NlBody => pad6 n +:+ TAB +:+ l +:+ LF +:+ nl_render sec start (n + 1) ls'
          | _ => spaces 7 +:+ l +:+ LF +:+ nl_render sec start n ls'
          end
      end
  end.

Definition nl_ba (start : Z) (text : string) : string :=
  nl_render NlBody start start (lines text).

(** A decimal integer argument. *)
Definition parse_int (s : string) : option Z :=
  Z.of_int <$> NilZero.int_of_string s.

(** The utilities keep a number of lines and a line number in integers of
    64 bits, and differ in what they do with a numeral beyond; a count is
    taken from 0 to [2^63 - 1], a line number from [- 2^63] to [2^63 - 1],
    and a command with any other numeral is outside the fragment. *)
Definition parse_count (s : string) : option Z :=
  k ← parse_int s;
  if (0 <=? k) && (k <? 2 ^ 63) then Some k else None.

Definition parse_number (s : string) : option Z :=
  k ← parse_int s;
  if (- 2 ^ 63 <=? k) && (k <? 2 ^ 63) then Some k else None.

(** ** Lexing and parsing *)

(** A word being read: its text, whether part of it was quoted, and
    whether every unquoted character of it is [plain]. *)
Record word : Type := W {
  text : string;
  quoted : bool;
  plain_ok : bool
}.

Definition empty_word : word := W "" false true.

(** Unquoted characters that mean themselves. *)
Definition plain (c : ascii) : bool :=
  let n := N_of_ascii c in
  ((48 <=? n) && (n <=? 57) || (65 <=? n) && (n <=? 90)
   || (97 <=? n) && (n <=? 122))%N
  || Ascii.eqb c "+" || Ascii.eqb c "-" || Ascii.eqb c "_" || Ascii.eqb c "."
  || Ascii.eqb c "/" || Ascii.eqb c ":" || Ascii.eqb c "," || Ascii.eqb c "@".

Definition push (cur : option word) (c : ascii) (q : bool) : option word :=
  let w := default empty_word cur in
  Some (W (text w +:+ String c "") (quoted w || q) (plain_ok w && (q || plain c))).

Definition open_quote (cur : option word) : option word :=
  let w := default empty_word cur in
  Some (W (text w) true (plain_ok w)).

Definition flush (cur : option word) (ws : list word) : list word :=
  match cur with
  | Some w => w :: ws
  | None => ws
  end.

Definition is_blank (c : ascii) : bool :=
  Ascii.eqb c " " || Ascii.eqb c "009".

(** Words are separated by blanks; a single quote opens a quoted stretch
    that runs to the next single quote. [in_quote] tells whether the
    reader is inside such a stretch. *)
Fixpoint lex (in_quote : bool) (cur : option word) (s : string)
  : option (list word) :=
  match s with
  | EmptyString => if in_quote then None else Some (flush cur [])
  | String c s' =>
      if in_quote then
        if Ascii.eqb c "'" then lex false cur s'
        else lex true (push cur c true) s'
      else if Ascii.eqb c "'" then lex true (open_quote cur) s'
      else if is_blank c then flush cur <$> lex false None s'
      else lex false (push cur c false) s'
  end.

Inductive token : Type :=
| Word (w : string)
| Pipe
| RedirOut
| ErrToOut.

(** A word of quoted and plain characters is an argument; the operators
    are recognised when they stand alone and unquoted; anything else
    (expansions, globs, other operators) is outside the fragment. *)
Definition classify (w : word) : option token :=
  if plain_ok w then Some (Word (text w))
  else if quoted w then None
  else if String.eqb (text w) "|" then Some Pipe
  else if String.eqb (text w) ">" then Some RedirOut
  else if String.eqb (text w) "2>&1" then Some ErrToOut
  else None.

Record stage : Type := Stage {
  argv : list string;
  to_file : option string;
  err_to_out : bool
}.

Definition empty_stage : stage := Stage [] None false.

(** A stage carries at most one redirection. *)
Fixpoint parse (ts : list token) (cur : stage) : option (list stage) :=
  match ts with
  | [] => Some [cur]
  | Word w :: ts' => parse ts' (Stage (argv cur ++ [w]) (to_file cur) (err_to_out cur))
  | Pipe :: ts' => (cur ::.) <$> parse ts' empty_stage
  | ErrToOut :: ts' =>
      if err_to_out cur || bool_decide (is_Some (to_file cur)) then None
      else parse ts' (Stage (argv cur) None true)
  | RedirOut :: ts' =>
      match ts' with
      | Word f :: ts'' =>
          if err_to_out cur || bool_decide (is_Some (to_file cur)) then None
          else parse ts'' (Stage (argv cur) (Some f) false)
      | _ => None
      end
  end.

(** ** Utilities *)

Record result : Type := Result {
  out : string;
  err : string;
  code : Z;
  files : gmap string string
}.

(** A file operand: not empty and not an option. *)
Definition operand (f : string) : bool :=
  match f with
  | EmptyString => false
  | String c _ => negb (Ascii.eqb c "-")
  end.

(** An argument that reads as an option. *)
Definition dashed (a : string) : bool :=
  match a with
  | EmptyString => false
  | String c _ => Ascii.eqb c "-"
  end.

Definition has_backslash (s : string) : bool := contains "\" s.

(** [echo]: the arguments separated by spaces, and a newline. What it does
    with a leading option or with backslashes differs between shells. *)
Definition echo (args : list string) (fs : gmap string string) : option result :=
  match args with
  | [] => Some (Result LF "" 0 fs)
  | a :: _ =>
      if negb (dashed a) && forallb (fun x => negb (has_backslash x)) args
      then Some (Result (join " " args +:+ LF) "" 0 fs)
      else None
  end.

Fixpoint remove_newlines (s : string) : string :=
  match s with
  | EmptyString => EmptyString
  | String c s' =>
      if Ascii.eqb c "010" then remove_newlines s' else String c (remove_newlines s')
  end.

Definition base64 (args : list string) (stdin : string) (fs : gmap string string)
  : option result :=
  match args with
  | [d] =>
      if String.eqb d "-d" then
        match Base64.b64decode (remove_newlines stdin) with
        | Some bytes => Some (Result bytes "" 0 fs)
        | None => None
        end
      else None
  | _ => None
  end.

(** The text a utility reads: the named file, or its standard input. *)
Definition input (file : option string) (stdin : string)
    (fs : gmap string string) : option (option string) :=
  match file with
  | None => Some (Some stdin)
  | Some f => if operand f then Some (fs !! f) else None
  end.

(** A filter: [f] applied to the input, or the diagnostic [missing] and
    status 1 when the named file does not exist. *)
Definition on_input (missing : string) (file : option string) (stdin : string)
    (fs : gmap string string) (f : string → string) : option result :=
  match input file stdin fs with
  | Some (Some text) => Some (Result (f text) "" 0 fs)
  | Some None => Some (Result "" (missing +:+ LF) 1 fs)
  | None => None
  end.

Definition nl_missing (f : string) : string :=
  "nl: " +:+ f +:+ ": No such file or directory".
Definition head_missing (f : string) : string :=
  "head: cannot open '" +:+ f +:+ "' for reading: No such file or directory".
Definition tail_missing (f : string) : string :=
  "tail: cannot open '" +:+ f +:+ "' for reading: No such file or directory".

Definition nl (args : list string) (stdin : string) (fs : gmap string string)
  : option result :=
  match args with
  | ba :: rest =>
      if String.eqb ba "-ba" then
        match rest with
        | [] => on_input "" None stdin fs (nl_ba 1)
        | [a] =>
            if String.eqb a "-v" then None
            else on_input (nl_missing a) (Some a) stdin fs (nl_ba 1)
        | v :: n :: rest' =>
            if String.eqb v "-v" then
              match parse_number n, rest' with
              | Some start, [] => on_input "" None stdin fs (nl_ba start)
              | Some start, [f] => on_input (nl_missing f) (Some f) stdin fs (nl_ba start)
              | _, _ => None
              end
            else None
        end
      else None
  | [] => None
  end.

Definition head (args : list string) (stdin : string) (fs : gmap string string)
  : option result :=
  match args with
  | n :: count :: rest =>
      if String.eqb n "-n" then
        match parse_count count with
        | Some k =>
            match rest with
            | [] => on_input "" None stdin fs (head_lines (Z.to_nat k))
            | [f] => on_input (head_missing f) (Some f) stdin fs
                       (head_lines (Z.to_nat k))
            | _ => None
            end
        | None => None
        end
      else None
  | _ => None
  end.

Definition tail (args : list string) (stdin : string) (fs : gmap string string)
  : option result :=
  match args with
  | n :: String plus count :: rest =>
      if String.eqb n "-n" && Ascii.eqb plus "+" then
        match parse_count count with
        | Some k =>
            match rest with
            | [] => on_input "" None stdin fs (drop_lines (Z.to_nat (k - 1)))
            | [f] => on_input (tail_missing f) (Some f) stdin fs
                       (drop_lines (Z.to_nat (k - 1)))
            | _ => None
            end
        | None => None
        end
      else None
  | _ => None
  end.

Definition cp_missing (f : string) : string :=
  "cp: cannot stat '" +:+ f +:+ "': No such file or directory".

Definition cp (args : list string) (fs : gmap string string) : option result :=
  match args with
  | [src; dst] =>
      if operand src && operand dst then
        match fs !! src with
        | Some text => Some (Result "" "" 0 (<[dst := text]> fs))
        | None => Some (Result "" (cp_missing src +:+ LF) 1 fs)
        end
      else None
  | _ => None
  end.

Definition rm (args : list string) (fs : gmap string string) : option result :=
  match args with
  | [f; file] =>
      if String.eqb f "-f" && operand file
      then Some (Result "" "" 0 (delete file fs))
      else None
  | _ => None
  end.

Definition mkdir (args : list string) (fs : gmap string string) : option result :=
  match args with
  | [p; dir] =>
      if String.eqb p "-p" && operand dir
      then Some (Result "" "" 0 fs)
      else None
  | _ => None
  end.

(** ** sed, for fixed texts *)

(** The characters that follow a backslash to stand for themselves, in a
    pattern as in a replacement: the backslash, the delimiter, and the
    characters with a meaning of their own on either side. *)
Definition special (c : ascii) : bool :=
  Ascii.eqb c "\" || Ascii.eqb c "/" || Ascii.eqb c "." || Ascii.eqb c "*"
  || Ascii.eqb c "[" || Ascii.eqb c "]" || Ascii.eqb c "^" || Ascii.eqb c "$"
  || Ascii.eqb c "&".

(** The characters with a meaning of their own when not escaped: the
    metacharacters of a basic regular expression in a pattern, the matched
    text [&] in a replacement. *)
Definition operator (regex : bool) (c : ascii) : bool :=
  if regex
  then Ascii.eqb c "." || Ascii.eqb c "*" || Ascii.eqb c "[" || Ascii.eqb c "^"
       || Ascii.eqb c "$"
  else Ascii.eqb c "&".

Inductive atom : Type :=
| Literal (c : ascii)
| Operator (c : ascii)
| Escape (c : ascii).

(** The text of a pattern ([regex = true]) or of a replacement, from after
    a delimiter up to the next unescaped ['/']: what was read, and what
    follows the delimiter. A line break or the end of the script before
    the delimiter leaves the command unterminated. *)
Fixpoint sed_text (regex : bool) (s : string) : option (list atom * string) :=
  match s with
  | EmptyString => None
  | String c s' =>
      if Ascii.eqb c "/" then Some ([], s')
      else if Ascii.eqb c "010" then None
      else if Ascii.eqb c "\" then
        match s' with
        | EmptyString => None
        | String d s'' =>
            '(atoms, rest) ← sed_text regex s'';
            Some ((if special d then Literal d else Escape d) :: atoms, rest)
        end
      else
        '(atoms, rest) ← sed_text regex s';
        Some ((if operator regex c then Operator c else Literal c) :: atoms, rest)
  end.

(** The text that atoms spell when they are all literal. *)
Fixpoint literal (atoms : list atom) : option string :=
  match atoms with
  | [] => Some EmptyString
  | Literal c :: atoms' => String c <$> literal atoms'
  | _ :: _ => None
  end.

Fixpoint strip_prefix (p s : string) : option string :=
  match p with
  | EmptyString => Some s
  | String a p' =>
      match s with
      | EmptyString => None
      | String b s' => if Ascii.eqb a b then strip_prefix p' s' else None
      end
  end.

(** The scripts understood: [s/old/new/g], [s/old/new/] and
    [0,/old/s//new/], for fixed non-empty [old] and fixed [new]. *)
Inductive sed_script : Type :=
| EveryMatch (old new : string)
| FirstOfLine (old new : string)
| FirstOfFile (old new : string).

Definition nonempty (s : string) : option string :=
  match s with
  | EmptyString => None
  | String _ _ => Some s
  end.

Definition parse_script (script : string) : option sed_script :=
  match strip_prefix "s/" script with
  | Some r =>
      '(p, r) ← sed_text true r;
      '(q, flags) ← sed_text false r;
      old ← literal p ≫= nonempty;
      new ← literal q;
      if String.eqb flags "g" then Some (EveryMatch old new)
      else if String.eqb flags "" then Some (FirstOfLine old new)
      else None
  | None =>
      r ← strip_prefix "0,/" script;
      '(p, r) ← sed_text true r;
      r ← strip_prefix "s//" r;
      '(q, flags) ← sed_text false r;
      old ← literal p ≫= nonempty;
      new ← literal q;
      if String.eqb flags "" then Some (FirstOfFile old new) else None
  end.

Fixpoint skip (n : nat) (s : string) : string :=
  match n, s with
  | S n', String _ s' => skip n' s'
  | _, _ => s
  end.

(** The leftmost occurrence of [old] in [line] replaced by [new]. *)
Fixpoint replace_first (old new line : string) : string :=
  match line with
  | EmptyString => EmptyString
  | String c line' =>
      if String.prefix old line then new +:+ skip (String.length old) line
      else String c (replace_first old new line')
  end.

(** [0,/old/s//new/]: the substitution applies up to the first line that
    has a match, hence to that line only. *)
Fixpoint replace_first_line (old new : string) (ls : list string) : list string :=
  match ls with
  | [] => []
  | l :: ls' =>
      if contains old l then replace_first old new l :: ls'
      else l :: replace_first_line old new ls'
  end.

Fixpoint ends_with_newline (s : string) : bool :=
  match s with
  | EmptyString => false
  | String c EmptyString => Ascii.eqb c "010"
  | String _ s' => ends_with_newline s'
  end.

(** The lines put back together; the last one is terminated when the
    original text was. *)
Definition unlines (ls : list string) (terminated : bool) : string :=
  join LF ls +:+ (if terminated then LF else EmptyString).

Definition sed_apply (script : sed_script) (text : string) : string :=
  let ls := lines text in
  let ls' :=
    match script with
    | EveryMatch old new => replace old new <$> ls
    | FirstOfLine old new => replace_first old new <$> ls
    | FirstOfFile old new => replace_first_line old new ls
    end in
  unlines ls' (ends_with_newline text).

Definition sed_missing (f : string) : string :=
  "sed: can't read " +:+ f +:+ ": No such file or directory".

(** [sed -i script file] *)
Definition sed (args : list string) (fs : gmap string string) : option result :=
  match args with
  | [i; script; file] =>
      if String.eqb i "-i" && operand file then
        script ← parse_script script;
        match fs !! file with
        | Some text => Some (Result "" "" 0 (<[file := sed_apply script text]> fs))
        | None => Some (Result "" (sed_missing file +:+ LF) 2 fs)
        end
      else None
  | _ => None
  end.

Definition utility (av : list string) (stdin : string) (fs : gmap string string)
  : option result :=
  match av with
  | [] => None
  | name :: args =>
      if String.eqb name "echo" then echo args fs
      else if String.eqb name "base64" then base64 args stdin fs
      else if String.eqb name "nl" then nl args stdin fs
      else if String.eqb name "head" then head args stdin fs
      else if String.eqb name "tail" then tail args stdin fs
      else if String.eqb name "cp" then cp args fs
      else if String.eqb name "rm" then rm args fs
      else if String.eqb name "mkdir" then mkdir args fs
      else if String.eqb name "sed" then sed args fs
      else None
  end.

(** ** Pipelines *)

(** What follows the last slash of a path. *)
Fixpoint last_component (p : string) : string :=
  match p with
  | EmptyString => EmptyString
  | String c p' =>
      if contains "/" p' then last_component p'
      else if Ascii.eqb c "/" then p' else p
  end.

(** A path that can only be that of a directory: it ends in a slash, or
    in a component [.] or [..]. *)
Definition names_directory (p : string) : bool :=
  let n := last_component p in
  String.eqb n "" || String.eqb n "." || String.eqb n "..".

Definition is_a_directory (f : string) : string :=
  "sh: " +:+ f +:+ ": Is a directory".

Definition not_a_directory (f : string) : string :=
  "sh: " +:+ f +:+ ": Not a directory".

(** [p] lies below the directory [d]. *)
Definition below (d p : string) : bool := String.prefix (d +:+ "/") p.

(** Directories are not kept on their own: [p] is one when a file lies
    below it. *)
Definition is_directory (fs : gmap string string) (p : string) : bool :=
  existsb (fun q => below p q) (fst <$> map_to_list fs).

(** [p] goes through a file: it lies below a path that holds one. *)
Definition through_file (fs : gmap string string) (p : string) : bool :=
  existsb (fun q => below q p) (fst <$> map_to_list fs).

(** One stage: the redirection target is created empty before the utility
    runs and receives its standard output afterwards; [2>&1] sends the
    diagnostics down the standard output. The shell refuses a target that
    is a directory or that goes through a file, and does not run the
    utility then. *)
Definition run_stage (st : stage) (stdin : string) (fs : gmap string string)
  : option result :=
  match to_file st with
  | Some f =>
      if operand f then
        if names_directory f || is_directory fs f
        then Some (Result "" (is_a_directory f +:+ LF) 1 fs)
        else if through_file fs f
        then Some (Result "" (not_a_directory f +:+ LF) 1 fs)
        else
          r ← utility (argv st) stdin (<[f := EmptyString]> fs);
          Some (Result "" (err r) (code r) (<[f := out r]> (files r)))
      else None
  | None =>
      r ← utility (argv st) stdin fs;
      if err_to_out st
      then Some (Result (out r +:+ err r) "" (code r) (files r))
      else Some r
  end.

(** The stages run left to right, each reading what the previous one wrote;
    [term] collects what reaches the terminal. The exit status is that of
    the last stage. *)
Fixpoint run_stages (sts : list stage) (stdin term : string)
    (fs : gmap string string) : option ((string * Z) * gmap string string) :=
  match sts with
  | [] => None
  | st :: sts' =>
      r ← run_stage st stdin fs;
      match sts' with
      | [] => Some ((term +:+ err r +:+ out r, code r), files r)
      | _ :: _ => run_stages sts' (out r) (term +:+ err r) (files r)
      end
  end.

Definition run (cmd : string) (fs : gmap string string)
  : option ((string * Z) * gmap string string) :=
  ws ← lex false None cmd;
  ts ← mapM classify ws;
  sts ← parse ts empty_stage;
  run_stages sts "" "" fs.

(** The channel: a command outside the fragment is answered with a
    diagnostic and changes nothing. *)
Definition execute (cmd : string) (timeout : Z) (fs : gmap string string)
  : (string * Z) * gmap string string :=
  match run cmd fs with
  | Some r => r
  | None => (("sh: command not interpreted" +:+ LF, 2), fs)
  end.

End Shell.

(* ================================================================== *)
(** * Notions used by the statements *)
(* ================================================================== *)

Import FileManager.

(** The channels an operation may be given. *)
Definition channel (World : Type) : Type :=
  string → Z → World → (string * Z) * World.

(** ** Reading *)

(** The line-numbering format of [nl -ba -v start]: each line preceded by
    its number, right-aligned on six columns, and a tab. *)
Fixpoint numbered (start : Z) (ls : list string) : string :=
  match ls with
  | [] => EmptyString
  | l :: ls' =>
      Shell.pad6 start +:+ Py.TAB +:+ l +:+ Py.LF +:+ numbered (start + 1) ls'
  end.

(** Neither marker of [read_file] occurs in [s]. *)
Definition marker_free (s : string) : Prop :=
  Py.contains no_such_file s = false ∧ Py.contains cannot_open s = false.

(** No line of [ls] is a section delimiter of [nl]. *)
Definition delimiter_free (ls : list string) : Prop :=
  Forall (fun l => Shell.nl_delimiter l = None) ls.

(** A text the single quotes of a command line carry as it is: no single
    quote in it. *)
Definition quotable (p : string) : Prop :=
  Py.contains "'" p = false.

(** A path that the quotes carry and that the utilities take for a file: not
    empty, no leading dash. *)
Definition plain_path (p : string) : Prop :=
  quotable p ∧ Shell.operand p = true.

(** ** Writing *)








(** Numbers that the utilities take for a window of lines: the
    numbers of the lines shown stay below [2^63]. *)
Definition window (offset limit : Z) : Prop := offset + limit < 2 ^ 63.

(** The session once [write_file] has dealt with the parent directory. *)
Definition after_mkdir {World : Type} (execute : channel World)
    (file_path : string) (s : session World) : session World :=
  if String.eqb (Py.dirname file_path) ""
  then s
  else snd (_run_command execute (mkdir_cmd (Py.dirname file_path)) 30 s).

(** A channel that behaves as [execute] except that it reports [answer] for
    the command [cmd]; the effect of [cmd] on the world is kept. *)
Definition reporting {World : Type} (execute : channel World)
    (cmd : string) (answer : string * Z) : channel World :=
  fun c timeout w =>
    let '(r, w') := execute c timeout w in
    (if String.eqb c cmd then answer else r, w').

(** ** Editing *)

(** Every special character preceded by a backslash, in one pass. *)
Fixpoint escape_each (s : string) : string :=
  match s with
  | EmptyString => EmptyString
  | String c s' =>
      if Shell.special c then String "\" (String c (escape_each s'))
      else String c (escape_each s')
  end.

(** The result of an edit stops [multi_edit_file] when it is an error whose
    message lacks the no-matches marker. *)
Definition fatal (r : string * bool) : bool :=
  snd r && negb (Py.contains no_matches (fst r)).

(** All of [edits] applied in order, each through [edit_file]: the results,
    and the session at the end. *)
Fixpoint apply_edits {World : Type} (execute : channel World)
    (file_path : string) (edits : list edit) (s : session World)
  : list (string * bool) * session World :=
  match edits with
  | [] => ([], s)
  | (old_string, new_string, replace_all) :: edits' =>
      let '(r, s') := edit_file execute file_path old_string new_string replace_all s in
      let '(rs, s'') := apply_edits execute file_path edits' s' in
      (r :: rs, s'')
  end.

(** The result line of the edit at (0-based) position [i]. *)
Definition edit_line (i : nat) (r : string * bool) : string :=
  "Edit " +:+ Py.str (Z.of_nat i + 1) +:+ ": " +:+ fst r.

(** ** Metadata *)

(** The outputs of the probes of [paths], run in order from the world [w]. *)
Fixpoint probe_outputs {World : Type} (execute : channel World)
    (paths : list string) (w : World) : list string :=
  match paths with
  | [] => []
  | p :: paths' =>
      let '((output, _), w') := execute (stat_cmd p) 30 w in
      output :: probe_outputs execute paths' w'
  end.



(** The blocks of the report for [paths]. *)
Definition metadata_blocks {World : Type} (execute : channel World)
    (paths : list string) (w : World) : list string :=
  zip_with metadata_block paths (probe_outputs execute paths w).

(** No whitespace character starts anywhere in [s]. *)
Fixpoint space_free (s : string) : bool :=
  match s with
  | EmptyString => true
  | String _ s' => (Py.space_width s =? 0)%nat && space_free s'
  end.

(** A field of the probe output: not empty, and free of whitespace. *)
Definition field (f : string) : Prop :=
  f ≠ EmptyString ∧ space_free f = true.

(** One replacement of the chain of [escape_for_sed]: every [c] becomes [new]. *)
Fixpoint substitute (c : ascii) (new s : string) : string :=
  match s with
  | EmptyString => EmptyString
  | String x s' =>
      if Ascii.eqb c x then new +:+ substitute c new s'
      else String x (substitute c new s')
  end.

(** [c] does not occur in [s]. *)
Definition absent (c : ascii) (s : string) : Prop :=
  Forall (fun x => Ascii.eqb x c = false) (list_ascii_of_string s).

(** Every character of [s] is plain for the shell. *)
Definition plain_text (s : string) : Prop :=
  Forall (fun c => Shell.plain c = true) (list_ascii_of_string s).

Definition digit (c : ascii) : bool :=
  ((48 <=? N_of_ascii c) && (N_of_ascii c <=? 57))%N.

(** The characters of an encoding: the alphabet and the padding. *)
Definition b64char (c : ascii) : bool :=
  bool_decide (is_Some (Base64.value_of c)) || Ascii.eqb c Base64.pad.



(** No result of [rs] stops [multi_edit_file]. *)
Definition tolerated (rs : list (string * bool)) : Prop :=
  Forall (fun r => fatal r = false) rs.

(** ** Sample data *)

(** Twenty lines, ["line 1"] to ["line 20"], each terminated. *)
Definition twenty_lines : list string :=
  (fun n => "line " +:+ Py.str (Z.of_nat n)) <$> seq 1 20.

Definition sample_text (ls : list string) : string := Shell.unlines ls true.


(** U+00A0, the no-break space, in UTF-8. *)
Definition no_break_space : string :=
  String (ascii_of_nat 194) (String (ascii_of_nat 160) EmptyString).


(** A channel that fails without a word. *)
Definition silent_failure : channel unit :=
  fun _ _ w => ((EmptyString, 1), w).

(** ** Command lines *)

(** A command line as the file manager writes it: words separated by one
    space. An argument is made of stretches, each a run of texts placed side
    by side, either between single quotes or bare; an operator stands bare. *)
Inductive stretch : Type :=
| Quoted (parts : list string)
| Bare (parts : list string).

Inductive command_word : Type :=
| Arg (stretches : list stretch)
| Op (symbol : string).

Fixpoint glue (parts : list string) (rest : string) : string :=
  match parts with
  | [] => rest
  | p :: parts' => p +:+ glue parts' rest
  end.

Definition render_stretch (st : stretch) (rest : string) : string :=
  match st with
  | Quoted parts => String "'" (glue parts (String "'" rest))
  | Bare parts => glue parts rest
  end.

Fixpoint render_stretches (sts : list stretch) (rest : string) : string :=
  match sts with
  | [] => rest
  | st :: sts' => render_stretch st (render_stretches sts' rest)
  end.

Definition render_word (w : command_word) (rest : string) : string :=
  match w with
  | Arg sts => render_stretches sts rest
  | Op symbol => symbol +:+ rest
  end.

Fixpoint render (ws : list command_word) : string :=
  match ws with
  | [] => EmptyString
  | w :: ws' =>
      render_word w
        match ws' with
        | [] => EmptyString
        | _ :: _ => String " " (render ws')
        end
  end.

(** The text an argument stands for. *)
Fixpoint stretches_text (sts : list stretch) : string :=
  match sts with
  | [] => EmptyString
  | Quoted parts :: sts' => glue parts (stretches_text sts')
  | Bare parts :: sts' => glue parts (stretches_text sts')
  end.

Definition is_quoted (st : stretch) : bool :=
  match st with
  | Quoted _ => true
  | Bare _ => false
  end.

(** The word the lexer makes of a command word. *)
Definition lexed (w : command_word) : Shell.word :=
  match w with
  | Arg sts => Shell.W (stretches_text sts) (existsb is_quoted sts) true
  | Op symbol =>
      Shell.W symbol false (forallb Shell.plain (list_ascii_of_string symbol))
  end.

(** A text free of blanks and quotes. *)
Definition bare_text (s : string) : Prop :=
  Forall (fun c => Shell.is_blank c = false ∧ Ascii.eqb c "'" = false)
    (list_ascii_of_string s).

(** What the quoting needs: nothing quoted holds a single quote, bare texts
    are plain, and no word is empty. *)
Definition stretch_ok (st : stretch) : Prop :=
  match st with
  | Quoted parts => Forall quotable parts
  | Bare parts => Forall plain_text parts ∧ glue parts "" ≠ ""
  end.

Definition command_word_ok (w : command_word) : Prop :=
  match w with
  | Arg sts => sts ≠ [] ∧ Forall stretch_ok sts
  | Op symbol => bare_text symbol ∧ symbol ≠ ""
  end.

(** ** Further notions *)


(** The escaping undone: a backslash gives way to the character after it. *)
Fixpoint unescape (s : string) : string :=
  match s with
  | EmptyString => EmptyString
  | String c s' =>
      if Ascii.eqb c "\" then
        match s' with
        | EmptyString => EmptyString
        | String d s'' => String d (unescape s'')
        end
      else String c (unescape s')
  end.




(** A channel that refuses every command with a diagnostic. *)
Definition denied : channel unit :=
  fun _ _ w => (("Permission denied", 1), w).

(** The channel [execute] with every exit code replaced by [c]. *)
Definition with_code {World : Type} (execute : channel World) (c : Z)
  : channel World :=
  fun cmd timeout w =>
    let '((output, _), w') := execute cmd timeout w in ((output, c), w').

(** A channel that answers as [execute] when it is given 30 seconds, and
    gives up without running the command otherwise. *)
Definition patient {World : Type} (execute : channel World) : channel World :=
  fun cmd timeout w =>
    if timeout =? 30 then execute cmd timeout w else ((EmptyString, 124), w).







(* ================================================================== *)
(** * Proof tools *)
(* ================================================================== *)

(** Facts about the variable parts of a command line (numerals, encodings). *)
Create HintDb words discriminated.

(** The side conditions of [lex_render] on the words of a command. *)
Ltac words_ok :=
  repeat first
    [ assumption
    | match goal with
      | |- Forall _ (_ :: _) => apply Forall_cons_2
      | |- Forall _ [] => apply Forall_nil_2
      | |- command_word_ok _ => split
      | |- stretch_ok _ => simpl
      | |- _ ∧ _ => split
      | |- plain_text _ => solve [ auto with words | by repeat constructor ]
      | |- bare_text _ => by repeat constructor
      | |- quotable _ => reflexivity
      | |- _ ≠ _ => simpl; solve [ done | auto with words ]
      end ].

Local Arguments String.append !_ _ / : simpl nomatch.
Ltac Zify.zify_post_hook ::= Z.to_euclidean_division_equations.

(* ================================================================== *)
(** * Strings *)
(* ================================================================== *)

Section StringFacts.

Implicit Types (s t m : string) (c x : ascii).

Lemma append_nil_r s : s +:+ "" = s.
Proof. induction s; simpl; congruence. Qed.

Lemma append_assoc s t m : (s +:+ t) +:+ m = s +:+ (t +:+ m).
Proof. induction s; simpl; congruence. Qed.


Lemma prefix_nil s : String.prefix "" s = true.
Proof. by destruct s. Qed.

Lemma prefix_cons x m c s :
  String.prefix (String x m) (String c s) = Ascii.eqb x c && String.prefix m s.
Proof.
  simpl. destruct (ascii_dec x c) as [->|Hne].
  - by rewrite Ascii.eqb_refl.
  - by apply Ascii.eqb_neq in Hne as ->.
Qed.

Lemma prefix_single c x s :
  String.prefix (String c "") (String x s) = Ascii.eqb c x.
Proof. by rewrite prefix_cons, prefix_nil, andb_true_r. Qed.


Lemma absent_cons c x m :
  absent c (String x m) ↔ Ascii.eqb x c = false ∧ absent c m.
Proof. unfold absent. simpl. by rewrite Forall_cons. Qed.

(** A text that lacks [c] cannot reach across a [c]. *)
Lemma prefix_separator c m : ∀ s t,
  absent c m →
  String.prefix m (s +:+ String c t) = String.prefix m s.
Proof.
  induction m as [|x m IH]; intros s t Hc; [by rewrite !prefix_nil|].
  apply absent_cons in Hc as [Hx Hc].
  destruct s as [|y s]; simpl String.append.
  - rewrite prefix_cons, Hx. done.
  - rewrite !prefix_cons. by rewrite IH.
Qed.

Lemma contains_separator c m s t :
  absent c m →
  Py.contains m (s +:+ String c t) = Py.contains m s || Py.contains m t.
Proof.
  intros Hc. induction s as [|y s IH].
  - pose proof (prefix_separator c m "" t Hc) as H.
    change ("" +:+ String c t) with (String c t) in *.
    cbn [Py.contains]. by rewrite H, orb_false_r.
  - pose proof (prefix_separator c m (String y s) t Hc) as H.
    change (String y s +:+ String c t) with (String y (s +:+ String c t)) in *.
    cbn [Py.contains]. by rewrite H, IH, !orb_assoc.
Qed.

Lemma contains_nil x m : Py.contains (String x m) "" = false.
Proof. done. Qed.

(** A text whose first character does not occur in [s] is not in [s]. *)
Lemma contains_first x m s :
  absent x s → Py.contains (String x m) s = false.
Proof.
  induction s as [|c s IH]; intros Hx; [done|].
  apply absent_cons in Hx as [Hc Hx]. cbn [Py.contains].
  rewrite prefix_cons, (Ascii.eqb_sym x c), Hc. by apply IH.
Qed.

Lemma absent_app c s t : absent c s → absent c t → absent c (s +:+ t).
Proof.
  intros Hs Ht. induction s as [|y s IH]; [done|].
  apply absent_cons in Hs as [Hy Hs]. simpl. apply absent_cons. auto.
Qed.

Lemma contains_single c s :
  Py.contains (String c "") s = false ↔ absent c s.
Proof.
  induction s as [|y s IH]; [by split; [constructor|]|].
  cbn [Py.contains]. rewrite prefix_single, orb_false_iff, IH, absent_cons.
  by rewrite (Ascii.eqb_sym c y).
Qed.

Lemma quotable_cons c s :
  quotable (String c s) ↔ Ascii.eqb c "'" = false ∧ quotable s.
Proof.
  unfold quotable. cbn [Py.contains]. rewrite prefix_single.
  rewrite orb_false_iff, (Ascii.eqb_sym "'" c). tauto.
Qed.

Lemma quotable_app s t : quotable s → quotable t → quotable (s +:+ t).
Proof.
  intros Hs Ht. induction s as [|c s IH]; [done|].
  apply quotable_cons in Hs as [Hc Hs]. simpl. apply quotable_cons. auto.
Qed.

End StringFacts.

Lemma run_command_eq {World : Type} (execute : channel World) cmd timeout
    (s : session World) r w' :
  execute cmd timeout (world s) = (r, w') →
  _run_command execute cmd timeout s = (r, Session w' (issued s ++ [cmd])).
Proof. intros H. unfold _run_command. by rewrite H. Qed.

(* ================================================================== *)
(** * Escaping for sed *)
(* ================================================================== *)

Section Escaping.

Lemma replace_single c new s :
  Py.replace (String c "") new s = substitute c new s.
Proof.
  unfold Py.replace. induction s as [|x s IH]; [done|].
  cbn [Py.replace_from substitute]. rewrite prefix_single.
  simpl String.length. simpl Nat.sub. by rewrite IH.
Qed.

Lemma substitute_app c new s t :
  substitute c new (s +:+ t) = substitute c new s +:+ substitute c new t.
Proof.
  induction s as [|x s IH]; [done|]. simpl String.append at 1.
  cbn [substitute]. destruct (Ascii.eqb c x).
  - by rewrite IH, append_assoc.
  - by rewrite IH.
Qed.

(** The chain of [escape_for_sed], as replacements of single characters. *)
Lemma escape_for_sed_chain s :
  escape_for_sed s =
    substitute "&" "\&" (substitute "$" "\$" (substitute "^" "\^"
      (substitute "]" "\]" (substitute "[" "\[" (substitute "*" "\*"
        (substitute "." "\." (substitute "/" "\/" (substitute "\" "\\" s)))))))).
Proof. unfold escape_for_sed. by rewrite !replace_single. Qed.

Lemma escape_for_sed_app s t :
  escape_for_sed (s +:+ t) = escape_for_sed s +:+ escape_for_sed t.
Proof. by rewrite !escape_for_sed_chain, !substitute_app. Qed.

Lemma escape_for_sed_char c :
  escape_for_sed (String c "") =
    if Shell.special c then String "\" (String c "") else String c "".
Proof.
  rewrite escape_for_sed_chain.
  destruct c as [[] [] [] [] [] [] [] []]; reflexivity.
Qed.

Lemma escape_for_sed_each s : escape_for_sed s = escape_each s.
Proof.
  induction s as [|c s IH]; [done|].
  change (String c s) with (String c "" +:+ s).
  rewrite escape_for_sed_app, escape_for_sed_char, IH.
  simpl. by destruct (Shell.special c).
Qed.




End Escaping.

(* ================================================================== *)
(** * Python primitives *)
(* ================================================================== *)

Section PythonFacts.

(** Cutting a text short brings no whitespace character to its start. *)
Lemma space_width_prefix a b :
  Py.space_width (a +:+ b) = 0%nat → Py.space_width a = 0%nat.
Proof.
  destruct a as [|x [|y [|z a]]]; [done|..]; simpl String.append;
    cbn [Py.space_width]; destruct (Py.isspace x); try done;
    destruct (Py.space2 x y); done.
Qed.

(** What [lstrip] leaves does not start with whitespace. *)
Lemma lstrip_head s c r :
  Py.lstrip s = String c r → Py.space_width (String c r) = 0%nat.
Proof.
  assert (∀ n s, (String.length s ≤ n)%nat →
            Py.lstrip s = String c r → Py.space_width (String c r) = 0%nat) as H;
    [|by apply (H (String.length s))].
  clear s. induction n as [|n IH]; intros [|a s1] Hn; try done;
    [simpl in Hn; lia|].
  simpl in Hn. cbn [Py.lstrip].
  destruct (Py.isspace a) eqn:Ha; [apply IH; lia|].
  destruct s1 as [|b s2]; [intros [= <- <-]; simpl; by rewrite Ha|].
  simpl in Hn.
  destruct (Py.space2 a b) eqn:H2; [apply IH; lia|].
  destruct s2 as [|c' s3]; [intros [= <- <-]; simpl; by rewrite Ha, H2|].
  simpl in Hn.
  destruct (Py.space3 a b c') eqn:H3; [apply IH; lia|].
  intros [= <- <-]. simpl. by rewrite Ha, H2, H3.
Qed.

Lemma take_word_cons a s :
  Py.take_word (String a s) =
    match Py.space_width (String a s) with
    | S _ => (EmptyString, String a s)
    | O => let '(w, r) := Py.take_word s in (String a w, r)
    end.
Proof. reflexivity. Qed.

(** A word and what follows it make up the text. *)
Lemma take_word_eq s : ∀ w r, Py.take_word s = (w, r) → s = w +:+ r.
Proof.
  induction s as [|a s IH]; intros w r; [by intros [= <- <-]|].
  rewrite take_word_cons. destruct (Py.space_width (String a s)).
  - destruct (Py.take_word s) as [w' r']. intros [= <- <-]. simpl.
    f_equal. by apply IH.
  - by intros [= <- <-].
Qed.

Lemma take_word_free s : ∀ w r, Py.take_word s = (w, r) → space_free w = true.
Proof.
  induction s as [|a s IH]; intros w r; [by intros [= <- <-]|].
  rewrite take_word_cons. destruct (Py.space_width (String a s)) eqn:Hw.
  - destruct (Py.take_word s) as [w' r'] eqn:Ht. intros [= <- <-].
    cbn [space_free]. rewrite (IH w' r') by done.
    rewrite (take_word_eq _ _ _ Ht) in Hw.
    by rewrite (space_width_prefix (String a w') r' Hw).
  - by intros [= <- <-].
Qed.

Lemma take_word_field c s w r :
  Py.space_width (String c s) = 0%nat → Py.take_word (String c s) = (w, r) → field w.
Proof.
  intros Hc H. split; [|by eapply take_word_free].
  rewrite take_word_cons, Hc in H.
  destruct (Py.take_word s) as [w' r']. by injection H as <- <-.
Qed.

Lemma split_S k s :
  Py.split (S k) s =
    match Py.lstrip s with
    | EmptyString => []
    | String _ _ as r => let '(w, rest) := Py.take_word r in w :: Py.split k rest
    end.
Proof. reflexivity. Qed.

(** [split] yields at most [maxsplit + 1] fields, none of them empty; the
    first [maxsplit] are free of whitespace. *)
Lemma split_fields n : ∀ s,
  (length (Py.split n s) ≤ S n)%nat
  ∧ Forall (fun f => f ≠ EmptyString) (Py.split n s)
  ∧ Forall field (take n (Py.split n s)).
Proof.
  induction n as [|n IH]; intros s.
  - cbn [Py.split]. destruct (Py.lstrip s) eqn:Hs; simpl.
    + split_and!; [lia|constructor|constructor].
    + split_and!; [lia| |constructor]. by repeat constructor.
  - rewrite split_S. destruct (Py.lstrip s) as [|c r] eqn:Hs.
    + simpl. split_and!; [lia|constructor|constructor].
    + destruct (Py.take_word (String c r)) as [w rest] eqn:Hw.
      destruct (IH rest) as (Hlen & Hne & Hf).
      pose proof (take_word_field c r w rest (lstrip_head _ _ _ Hs) Hw) as Hfield.
      cbn [length take]. split_and!; [lia| |].
      * constructor; [apply Hfield|done].
      * by constructor.
Qed.

(** ** Decimal numerals *)

Lemma str_parse z : Shell.parse_int (Py.str z) = Some z.
Proof.
  unfold Shell.parse_int, Py.str. rewrite NilZero.isi.
  - simpl. by rewrite DecimalZ.of_to.
  - destruct z as [|p|p]; simpl; [done| |done].
    intros [= H]. by apply (DecimalPos.Unsigned.to_uint_nonnil p).
  - destruct z as [|p|p]; simpl; [done|done|].
    intros [= H]. by apply (DecimalPos.Unsigned.to_uint_nonnil p).
Qed.

Lemma parse_count_str z :
  0 ≤ z < 2 ^ 63 → Shell.parse_count (Py.str z) = Some z.
Proof.
  intros Hz. unfold Shell.parse_count. rewrite str_parse. cbn [mbind option_bind].
  destruct (Z.leb_spec 0 z); [|lia]. destruct (Z.ltb_spec z (2 ^ 63)); [done|lia].
Qed.

Lemma parse_number_str z :
  - 2 ^ 63 ≤ z < 2 ^ 63 → Shell.parse_number (Py.str z) = Some z.
Proof.
  intros Hz. unfold Shell.parse_number. rewrite str_parse. cbn [mbind option_bind].
  destruct (Z.leb_spec (- 2 ^ 63) z); [|lia].
  destruct (Z.ltb_spec z (2 ^ 63)); [done|lia].
Qed.

Lemma digits_of_uint d :
  Forall (fun c => digit c = true) (list_ascii_of_string (NilEmpty.string_of_uint d)).
Proof. induction d; simpl; by constructor. Qed.

Lemma str_digits z :
  Forall (fun c => digit c || Ascii.eqb c "-" = true)
    (list_ascii_of_string (Py.str z)).
Proof.
  assert (∀ d, Forall (fun c => digit c || Ascii.eqb c "-" = true)
                 (list_ascii_of_string (NilZero.string_of_uint d))) as Hu.
  { intros d. apply Forall_impl with (P := fun c => digit c = true).
    - destruct d; try apply (digits_of_uint (_ _)). by repeat constructor.
    - by intros c ->. }
  unfold Py.str. destruct (Z.to_int z); simpl; [apply Hu|].
  constructor; [done|apply Hu].
Qed.

Lemma str_nonempty z : Py.str z ≠ "".
Proof.
  unfold Py.str. destruct (Z.to_int z) as [d|d]; simpl; [|done].
  by destruct d.
Qed.

Lemma digit_plain c : digit c || Ascii.eqb c "-" = true → Shell.plain c = true.
Proof.
  unfold digit, Shell.plain. intros [H| ->]%orb_true_iff.
  - by rewrite H.
  - by rewrite !orb_true_r.
Qed.

Lemma str_plain z : plain_text (Py.str z).
Proof. eapply Forall_impl; [apply str_digits|]. intros c. apply digit_plain. Qed.

Lemma str_append_nonempty z rest : Py.str z +:+ rest ≠ "".
Proof. pose proof (str_nonempty z). by destruct (Py.str z). Qed.

(** ** Directory names *)




End PythonFacts.

#[global] Hint Resolve str_plain str_append_nonempty : words.

(* ================================================================== *)
(** * Base64 *)
(* ================================================================== *)

Section Base64Facts.

Local Open Scope N_scope.

Lemma lor_shiftl_add y k x : x < 2 ^ k → N.lor (N.shiftl y k) x = y * 2 ^ k + x.
Proof.
  intros Hx.
  assert (N.land (N.shiftl y k) x = 0) as Hland.
  { apply N.bits_inj. intros m. rewrite N.land_spec, N.bits_0.
    destruct (N.lt_ge_cases m k) as [Hm|Hm].
    - by rewrite N.shiftl_spec_low.
    - destruct (N.eq_dec x 0) as [->|Hx0].
      + by rewrite N.bits_0, andb_false_r.
      + rewrite (N.bits_above_log2 x m), andb_false_r; [done|].
        apply N.lt_le_trans with k; [|done].
        apply N.log2_lt_pow2; lia. }
  rewrite <- N.lxor_lor, <- N.add_nocarry_lxor by done.
  by rewrite N.shiftl_mul_pow2.
Qed.

(** The four 6-bit groups of three bytes. *)
Lemma sextets a b c :
  a < 256 → b < 256 → c < 256 →
  let n := N.lor (N.lor (N.shiftl a 16) (N.shiftl b 8)) c in
  N.shiftr n 18 = a / 4
  ∧ N.land (N.shiftr n 12) 63 = (a mod 4) * 16 + b / 16
  ∧ N.land (N.shiftr n 6) 63 = (b mod 16) * 4 + c / 64
  ∧ N.land n 63 = c mod 64.
Proof.
  intros Ha Hb Hc n.
  assert (n = a * 65536 + b * 256 + c) as ->.
  { unfold n. change 16 with (8 + 8).
    rewrite <- N.shiftl_shiftl, <- N.shiftl_lor.
    rewrite (lor_shiftl_add _ 8 c), (lor_shiftl_add _ 8 b) by (simpl; lia).
    simpl. lia. }
  change 63 with (N.ones 6). rewrite !N.land_ones, !N.shiftr_div_pow2.
  change (2 ^ 18) with 262144. change (2 ^ 12) with 4096.
  change (2 ^ 6) with 64.
  split_and!; lia.
Qed.

Lemma value_of_char_of v : v < 64 → Base64.value_of (Base64.char_of v) = Some v.
Proof.
  intros Hv. unfold Base64.char_of.
  destruct (N.ltb_spec v 26); [|destruct (N.ltb_spec v 52);
    [|destruct (N.ltb_spec v 62); [|destruct (N.eqb_spec v 62)]]];
  unfold Base64.value_of; cbv zeta; rewrite N_ascii_embedding by lia;
  repeat match goal with
  | |- context [ ?a <=? ?b ] => destruct (N.leb_spec a b); try lia
  | |- context [ ?a =? ?b ] => destruct (N.eqb_spec a b); try lia
  end; simpl; f_equal; lia.
Qed.

Lemma char_of_not_pad v : v < 64 → Ascii.eqb (Base64.char_of v) Base64.pad = false.
Proof.
  intros Hv. apply Ascii.eqb_neq. intros Heq.
  pose proof (value_of_char_of v Hv) as H. by rewrite Heq in H.
Qed.

Lemma char_of_b64char v : v < 64 → b64char (Base64.char_of v) = true.
Proof.
  intros Hv. unfold b64char. rewrite value_of_char_of by done.
  by rewrite bool_decide_eq_true_2.
Qed.

(** Induction on a byte string, three bytes at a time. *)
Lemma string_triples (P : string → Prop) :
  P "" →
  (∀ a, P (String a "")) →
  (∀ a b, P (String a (String b ""))) →
  (∀ a b c rest, P rest → P (String a (String b (String c rest)))) →
  ∀ s, P s.
Proof.
  intros H0 H1 H2 H3 s.
  assert (P s ∧ (∀ a, P (String a s)) ∧ (∀ a b, P (String a (String b s)))) as [? _].
  { induction s as [|c s (IH0 & IH1 & IH2)]; [by auto|].
    split_and!; [apply IH1|intros a; apply IH2|intros a b; by apply H3]. }
  done.
Qed.

Lemma byte_of_eq n x : x < 256 → n mod 256 = x → Base64.byte_of n = ascii_of_N x.
Proof.
  intros Hx Hn. unfold Base64.byte_of. change 255 with (N.ones 8).
  rewrite N.land_ones. change (2 ^ 8) with 256. by rewrite Hn.
Qed.

(** The bytes put back together from their 6-bit groups. *)
Lemma decode_bytes a b c :
  a < 256 → b < 256 → c < 256 →
  let v1 := a / 4 in
  let v2 := a mod 4 * 16 + b / 16 in
  let v3 := b mod 16 * 4 + c / 64 in
  let v4 := c mod 64 in
  (v1 < 64 ∧ v2 < 64 ∧ v3 < 64 ∧ v4 < 64)
  ∧ Base64.byte_of (N.lor (N.shiftl v1 2) (N.shiftr v2 4)) = ascii_of_N a
  ∧ Base64.byte_of (N.lor (N.shiftl v2 4) (N.shiftr v3 2)) = ascii_of_N b
  ∧ Base64.byte_of (N.lor (N.shiftl v3 6) v4) = ascii_of_N c.
Proof.
  intros Ha Hb Hc v1 v2 v3 v4. subst v1 v2 v3 v4.
  split; [lia|].
  rewrite !N.shiftr_div_pow2.
  change (2 ^ 4) with 16. change (2 ^ 2) with 4.
  rewrite !lor_shiftl_add by (simpl; lia).
  change (2 ^ 2) with 4. change (2 ^ 4) with 16. change (2 ^ 6) with 64.
  split_and!; (apply byte_of_eq; [done|lia]).
Qed.

(** Decoding undoes encoding, for every byte string. *)
Lemma b64decode_b64encode s : Base64.b64decode (Base64.b64encode s) = Some s.
Proof.
  induction s as [|a|a b|a b c rest IH] using string_triples.
  - done.
  - pose proof (N_ascii_bounded a) as Ha.
    destruct (sextets (N_of_ascii a) 0 0) as (E1 & E2 & _ & _); [lia..|].
    destruct (decode_bytes (N_of_ascii a) 0 0)
      as ((L1 & L2 & _ & _) & B1 & _ & _); [lia..|].
    rewrite !N.shiftl_0_l, !N.lor_0_r in E1, E2.
    cbn [Base64.b64encode]. rewrite E1, E2. cbn [Base64.b64decode].
    rewrite !value_of_char_of by done.
    rewrite Ascii.eqb_refl, B1, ascii_N_embedding.
    replace (N.land _ 15) with 0; [done|].
    change 15 with (N.ones 4). rewrite N.land_ones. change (2 ^ 4) with 16. lia.
  - pose proof (N_ascii_bounded a) as Ha. pose proof (N_ascii_bounded b) as Hb.
    destruct (sextets (N_of_ascii a) (N_of_ascii b) 0) as (E1 & E2 & E3 & _); [lia..|].
    destruct (decode_bytes (N_of_ascii a) (N_of_ascii b) 0)
      as ((L1 & L2 & L3 & _) & B1 & B2 & _); [lia..|].
    rewrite !N.lor_0_r in E1, E2, E3.
    cbn [Base64.b64encode]. rewrite E1, E2, E3. cbn [Base64.b64decode].
    rewrite !value_of_char_of by done.
    rewrite Ascii.eqb_refl, char_of_not_pad by done.
    rewrite B1, B2, !ascii_N_embedding.
    replace (N.land _ 3) with 0; [done|].
    change 3 with (N.ones 2). rewrite N.land_ones. change (2 ^ 2) with 4. lia.
  - pose proof (N_ascii_bounded a) as Ha. pose proof (N_ascii_bounded b) as Hb.
    pose proof (N_ascii_bounded c) as Hc.
    destruct (sextets (N_of_ascii a) (N_of_ascii b) (N_of_ascii c))
      as (E1 & E2 & E3 & E4); [lia..|].
    destruct (decode_bytes (N_of_ascii a) (N_of_ascii b) (N_of_ascii c))
      as ((L1 & L2 & L3 & L4) & B1 & B2 & B3); [lia..|].
    cbn [Base64.b64encode]. rewrite E1, E2, E3, E4. cbn [Base64.b64decode].
    rewrite !value_of_char_of by done.
    rewrite char_of_not_pad by done.
    by rewrite IH, B1, B2, B3, !ascii_N_embedding.
Qed.

(** An encoding is made of the alphabet and the padding only. *)
Lemma b64encode_chars s :
  Forall (fun c => b64char c = true) (list_ascii_of_string (Base64.b64encode s)).
Proof.
  assert (b64char Base64.pad = true) as Hpad by done.
  induction s as [|a|a b|a b c rest IH] using string_triples.
  - constructor.
  - pose proof (N_ascii_bounded a) as Ha.
    destruct (sextets (N_of_ascii a) 0 0) as (E1 & E2 & _ & _); [lia..|].
    rewrite !N.shiftl_0_l, !N.lor_0_r in E1, E2.
    cbn [Base64.b64encode]. rewrite E1, E2. simpl.
    repeat constructor; try done; apply char_of_b64char; lia.
  - pose proof (N_ascii_bounded a) as Ha. pose proof (N_ascii_bounded b) as Hb.
    destruct (sextets (N_of_ascii a) (N_of_ascii b) 0) as (E1 & E2 & E3 & _); [lia..|].
    rewrite !N.lor_0_r in E1, E2, E3.
    cbn [Base64.b64encode]. rewrite E1, E2, E3. simpl.
    repeat constructor; try done; apply char_of_b64char; lia.
  - pose proof (N_ascii_bounded a) as Ha. pose proof (N_ascii_bounded b) as Hb.
    pose proof (N_ascii_bounded c) as Hc.
    destruct (sextets (N_of_ascii a) (N_of_ascii b) (N_of_ascii c))
      as (E1 & E2 & E3 & E4); [lia..|].
    cbn [Base64.b64encode]. rewrite E1, E2, E3, E4. simpl.
    repeat (constructor; [apply char_of_b64char; lia|]). done.
Qed.

(** No character of an encoding means anything to the shell or to [echo]. *)
Lemma b64char_inert c :
  b64char c = true →
  Ascii.eqb c "'" = false ∧ Ascii.eqb c "010" = false
  ∧ Ascii.eqb c "\" = false ∧ Ascii.eqb c "-" = false.
Proof.
  destruct c as [[] [] [] [] [] [] [] []]; vm_compute; intros H;
    first [discriminate H | done].
Qed.

End Base64Facts.

(* ================================================================== *)
(** * Lines and their numbering *)
(* ================================================================== *)

Section LineFacts.

Lemma lines_cons c s :
  Shell.lines (String c s) =
    if Ascii.eqb c "010" then EmptyString :: Shell.lines s
    else match Shell.lines s with
         | [] => [String c EmptyString]
         | l :: ls => String c l :: ls
         end.
Proof. reflexivity. Qed.

Lemma lines_head_lines s : ∀ n,
  Shell.lines (Shell.head_lines n s) = take n (Shell.lines s).
Proof.
  induction s as [|c s IH]; intros n; [by destruct n|].
  destruct n as [|n]; [done|].
  cbn [Shell.head_lines]. rewrite !lines_cons.
  destruct (Ascii.eqb c "010"); rewrite IH; [done|].
  by destruct (Shell.lines s); simpl; rewrite ?take_nil.
Qed.

Lemma drop_lines_0 s : Shell.drop_lines 0 s = s.
Proof. by destruct s. Qed.

Lemma lines_drop_lines s : ∀ k,
  Shell.lines (Shell.drop_lines k s) = drop k (Shell.lines s).
Proof.
  induction s as [|c s IH]; intros k; [by destruct k|].
  destruct k as [|k]; [done|].
  cbn [Shell.drop_lines]. rewrite lines_cons.
  destruct (Ascii.eqb c "010"); rewrite IH; [done|].
  by destruct (Shell.lines s); simpl; rewrite ?drop_nil.
Qed.

(** Without section delimiters, [nl -ba] numbers every line. *)
Lemma nl_render_numbered ls : ∀ start n,
  delimiter_free ls → Shell.nl_render Shell.NlBody start n ls = numbered n ls.
Proof.
  induction ls as [|l ls IH]; intros start n Hd; [done|].
  inversion Hd as [|? ? Hl Hls]; subst. simpl. rewrite Hl. by rewrite IH.
Qed.




Lemma spaces_absent x n : Ascii.eqb " " x = false → absent x (Shell.spaces n).
Proof. intros Hx. induction n; [constructor|]. simpl. by apply absent_cons. Qed.

(** A number column holds spaces, digits and at most a sign. *)
Lemma pad6_absent x n :
  Ascii.eqb " " x = false → digit x || Ascii.eqb x "-" = false →
  absent x (Shell.pad6 n).
Proof.
  intros Hsp Hx. unfold Shell.pad6. apply absent_app; [by apply spaces_absent|].
  eapply Forall_impl; [apply str_digits|]. intros c Hc. simpl in *.
  destruct (Ascii.eqb_spec c x) as [->|]; [|done]. congruence.
Qed.

(** Numbering the lines adds no occurrence of a text that starts with a
    letter and has no tab or line break in it. *)
Lemma numbered_lacks x m ls : ∀ n,
  Ascii.eqb " " x = false → digit x || Ascii.eqb x "-" = false →
  absent "009" (String x m) → absent "010" (String x m) →
  Forall (fun l => Py.contains (String x m) l = false) ls →
  Py.contains (String x m) (numbered n ls) = false.
Proof.
  intros n Hsp Hx Htab Hlf Hls. revert n.
  induction Hls as [|l ls Hl Hls IH]; intros n; [done|].
  cbn [numbered]. unfold Py.TAB, Py.LF. simpl String.append.
  change (String "009" ?s) with (String (ascii_of_nat 9) s).
  rewrite (contains_separator "009") by done.
  rewrite (contains_separator "010") by done.
  rewrite Hl, IH, contains_first; [done|]. by apply pad6_absent.
Qed.

Lemma numbered_marker_free n ls :
  Forall marker_free ls → marker_free (numbered n ls).
Proof.
  intros Hls. split; apply numbered_lacks; try done;
    try (by repeat constructor); eapply Forall_impl; try apply Hls;
    by intros l [? ?].
Qed.


Lemma take_drop_marker_free ls n k :
  Forall marker_free ls → Forall marker_free (take n (drop k ls)).
Proof. intros H. by apply Forall_take, Forall_drop. Qed.

End LineFacts.

(* ================================================================== *)
(** * Quoting: the lexer reads a command line back into its words *)
(* ================================================================== *)

Section Quoting.

Lemma glue_app parts rest : glue parts rest = glue parts "" +:+ rest.
Proof.
  induction parts as [|p parts IH]; [done|]. simpl.
  by rewrite IH, append_assoc.
Qed.

Lemma glue_quotable parts : Forall quotable parts → quotable (glue parts "").
Proof. induction 1; [done|]. simpl. by apply quotable_app. Qed.

Lemma plain_text_app s t : plain_text s → plain_text t → plain_text (s +:+ t).
Proof.
  intros Hs Ht. induction s as [|c s IH]; [done|].
  inversion Hs; subst. simpl. constructor; [done|]. by apply IH.
Qed.

Lemma glue_plain parts : Forall plain_text parts → plain_text (glue parts "").
Proof. induction 1; [constructor|]. simpl. by apply plain_text_app. Qed.

Lemma plain_not_quote c : Shell.plain c = true → Ascii.eqb c "'" = false.
Proof. by destruct (Ascii.eqb_spec c "'") as [->|]. Qed.

Lemma plain_not_blank c : Shell.plain c = true → Shell.is_blank c = false.
Proof.
  unfold Shell.is_blank.
  destruct (Ascii.eqb_spec c " ") as [->|]; [done|].
  by destruct (Ascii.eqb_spec c "009") as [->|].
Qed.

Lemma plain_text_bare s : plain_text s → bare_text s.
Proof.
  intros H. eapply Forall_impl; [exact H|]. intros c Hc.
  split; [by apply plain_not_blank|by apply plain_not_quote].
Qed.

Lemma plain_text_forallb s :
  plain_text s → forallb Shell.plain (list_ascii_of_string s) = true.
Proof. induction 1 as [|c l Hc _ IH]; [done|]. simpl. by rewrite Hc. Qed.

(** Between quotes, everything but a quote is taken as it is. *)
Lemma lex_quoted_body body : ∀ rest t p,
  quotable body →
  Shell.lex true (Some (Shell.W t true p)) (body +:+ rest) =
  Shell.lex true (Some (Shell.W (t +:+ body) true p)) rest.
Proof.
  induction body as [|c body IH]; intros rest t p Hq.
  - by rewrite append_nil_r.
  - apply quotable_cons in Hq as [Hc Hq]. simpl. rewrite Hc.
    unfold Shell.push. simpl. rewrite andb_true_r, IH by done.
    by rewrite append_assoc.
Qed.

(** Outside quotes, a text free of blanks and quotes extends the word. *)
Lemma lex_bare_body body : ∀ rest t q p,
  bare_text body →
  Shell.lex false (Some (Shell.W t q p)) (body +:+ rest) =
  Shell.lex false
    (Some (Shell.W (t +:+ body) q
             (p && forallb Shell.plain (list_ascii_of_string body)))) rest.
Proof.
  induction body as [|c body IH]; intros rest t q p Hb.
  - by rewrite append_nil_r, andb_true_r.
  - inversion Hb as [|? ? [Hc1 Hc2] Hb']; subst. simpl.
    rewrite Hc1, Hc2. unfold Shell.push. simpl.
    rewrite IH by done. by rewrite append_assoc, orb_false_r, andb_assoc.
Qed.

Lemma lex_bare_start body rest :
  bare_text body → body ≠ "" →
  Shell.lex false None (body +:+ rest) =
  Shell.lex false
    (Some (Shell.W body false (forallb Shell.plain (list_ascii_of_string body))))
    rest.
Proof.
  intros Hb Hne. destruct body as [|c body]; [done|].
  inversion Hb as [|? ? [Hc1 Hc2] Hb']; subst. simpl.
  rewrite Hc1, Hc2. unfold Shell.push. simpl. by rewrite lex_bare_body.
Qed.

Lemma lex_stretch st rest t q p :
  stretch_ok st →
  Shell.lex false (Some (Shell.W t q p)) (render_stretch st rest) =
  Shell.lex false
    (Some (Shell.W (t +:+ stretches_text [st]) (q || is_quoted st) p)) rest.
Proof.
  destruct st as [parts|parts]; simpl; intros Hok.
  - unfold Shell.open_quote. simpl.
    rewrite glue_app, lex_quoted_body by by apply glue_quotable.
    simpl. by rewrite orb_true_r.
  - destruct Hok as [Hp _].
    rewrite glue_app, lex_bare_body by by apply plain_text_bare, glue_plain.
    by rewrite plain_text_forallb, andb_true_r, orb_false_r by by apply glue_plain.
Qed.

Lemma lex_stretch_start st rest :
  stretch_ok st →
  Shell.lex false None (render_stretch st rest) =
  Shell.lex false
    (Some (Shell.W (stretches_text [st]) (is_quoted st) true)) rest.
Proof.
  destruct st as [parts|parts]; simpl; intros Hok.
  - unfold Shell.open_quote. simpl.
    rewrite glue_app, lex_quoted_body by by apply glue_quotable. done.
  - destruct Hok as [Hp Hne].
    rewrite glue_app, lex_bare_start by (by apply plain_text_bare, glue_plain || done).
    by rewrite plain_text_forallb by by apply glue_plain.
Qed.

Lemma stretches_text_cons st sts :
  stretches_text (st :: sts) = stretches_text [st] +:+ stretches_text sts.
Proof.
  destruct st as [parts|parts]; simpl;
    by rewrite (glue_app parts (stretches_text sts)).
Qed.

Lemma lex_stretches sts : ∀ rest t q p,
  Forall stretch_ok sts →
  Shell.lex false (Some (Shell.W t q p)) (render_stretches sts rest) =
  Shell.lex false
    (Some (Shell.W (t +:+ stretches_text sts) (q || existsb is_quoted sts) p)) rest.
Proof.
  induction sts as [|st sts IH]; intros rest t q p Hok.
  - simpl. by rewrite append_nil_r, orb_false_r.
  - inversion Hok; subst. cbn [render_stretches].
    rewrite lex_stretch, IH by done.
    rewrite (stretches_text_cons st sts), append_assoc.
    cbn [existsb]. by rewrite orb_assoc.
Qed.

Lemma lex_word w rest :
  command_word_ok w →
  Shell.lex false None (render_word w rest) = Shell.lex false (Some (lexed w)) rest.
Proof.
  destruct w as [sts|symbol]; simpl.
  - intros [Hne Hok]. destruct sts as [|st sts]; [done|].
    inversion Hok; subst. cbn [render_stretches].
    rewrite lex_stretch_start, lex_stretches by done.
    by rewrite (stretches_text_cons st sts).
  - intros [Hb Hne]. by rewrite lex_bare_start.
Qed.

(** Lexing a rendered command line gives its words back. *)
Lemma lex_render ws :
  Forall command_word_ok ws →
  Shell.lex false None (render ws) = Some (lexed <$> ws).
Proof.
  induction 1 as [|w ws Hw Hws IH]; [done|].
  cbn [render]. rewrite lex_word by done.
  destruct ws as [|w' ws]; [done|].
  cbn [Shell.lex]. simpl Ascii.eqb. simpl Shell.is_blank. cbv iota.
  by rewrite IH.
Qed.

End Quoting.

Arguments Shell.nl_ba : simpl never.
Arguments Shell.nl_missing : simpl never.
Arguments Shell.tail_missing : simpl never.
Arguments Shell.cp_missing : simpl never.
Arguments Shell.sed_missing : simpl never.
Arguments Shell.sed_apply : simpl never.
Arguments Shell.head_lines : simpl never.
Arguments Shell.drop_lines : simpl never.
Arguments Py.str : simpl never.
Arguments Base64.b64encode : simpl never.
Arguments Base64.b64decode : simpl never.
Arguments Shell.names_directory : simpl never.
Arguments Shell.is_a_directory : simpl never.
Arguments Shell.not_a_directory : simpl never.
Arguments Shell.is_directory : simpl never.
Arguments Shell.through_file : simpl never.

(* ================================================================== *)
(** * The reference channel on the commands of the file manager *)
(* ================================================================== *)

Section ShellFacts.

Implicit Types (fs : gmap string string) (path : string).




(** ** Reading *)

Lemma read_all_words path :
  read_cmd path None None =
    render [Arg [Bare ["nl"]]; Arg [Bare ["-ba"]]; Arg [Quoted [path]]; Op "2>&1"].
Proof. reflexivity. Qed.


Lemma read_range_words path offset limit :
  read_cmd path (Some offset) (Some limit) =
    render [Arg [Bare ["tail"]]; Arg [Bare ["-n"]]; Arg [Bare ["+"; Py.str offset]];
            Arg [Quoted [path]]; Op "2>&1"; Op "|";
            Arg [Bare ["head"]]; Arg [Bare ["-n"]]; Arg [Bare [Py.str limit]]; Op "|";
            Arg [Bare ["nl"]]; Arg [Bare ["-ba"]]; Arg [Bare ["-v"]];
            Arg [Bare [Py.str offset]]].
Proof. unfold read_cmd. cbn [render render_word render_stretches render_stretch glue].
  by rewrite append_nil_r. Qed.

Lemma execute_read_range path offset limit fs timeout :
  plain_path path → 0 ≤ offset < 2 ^ 63 → 0 ≤ limit < 2 ^ 63 →
  Shell.execute (read_cmd path (Some offset) (Some limit)) timeout fs =
    (match fs !! path with
     | Some text =>
         (Shell.nl_ba offset
            (Shell.head_lines (Z.to_nat limit)
               (Shell.drop_lines (Z.to_nat (offset - 1)) text)), 0)
     | None =>
         (Shell.nl_ba offset
            (Shell.head_lines (Z.to_nat limit) (Shell.tail_missing path +:+ Py.LF)), 0)
     end, fs).
Proof.
  intros [Hq Hop] Ho Hl. unfold Shell.execute, Shell.run.
  rewrite read_range_words, lex_render by words_ok.
  simpl. rewrite ?append_nil_r.
  unfold Shell.run_stage, Shell.utility, Shell.tail, Shell.head, Shell.nl. simpl.
  rewrite !parse_count_str, parse_number_str by lia. simpl.
  unfold Shell.on_input, Shell.input.
  rewrite Hop. destruct (fs !! path); simpl; by rewrite ?append_nil_r.
Qed.

(** ** Writing *)

Lemma b64encode_absent c s :
  (∀ x, b64char x = true → Ascii.eqb x c = false) →
  absent c (Base64.b64encode s).
Proof. intros H. eapply Forall_impl; [apply b64encode_chars|done]. Qed.

Lemma b64encode_quotable s : quotable (Base64.b64encode s).
Proof.
  apply contains_single, b64encode_absent. intros x Hx.
  by destruct (b64char_inert x Hx) as (? & ? & ? & ?).
Qed.











(** ** Editing *)















End ShellFacts.

(* ================================================================== *)
(** * The operations, over any channel *)
(* ================================================================== *)

Section AnyChannel.

Context {World : Type} (execute : channel World).

Implicit Types (s : session World) (path : string).

Lemma read_file_eq path offset limit s output code w' :
  execute (read_cmd path offset limit) 30 (world s) = ((output, code), w') →
  read_file execute path offset limit s =
    (if Py.contains no_such_file output || Py.contains cannot_open output
     then ("File not found: " +:+ path, true)
     else if negb (code =? 0) && negb (String.eqb output "")
     then ("Error reading file: " +:+ output, true)
     else (output, false),
     Session w' (issued s ++ [read_cmd path offset limit])).
Proof.
  intros H. unfold read_file, bind. rewrite (run_command_eq _ _ _ _ _ _ H).
  by repeat case_match.
Qed.

(** C10. Whenever the command of a read prints nothing, the read succeeds
    with the empty text, whatever the exit code of the command: the empty
    output holds no not-found marker, and the exit code only counts
    together with some output. *)
Theorem read_empty_output_is_success path offset limit s code w' :
  execute (read_cmd path offset limit) 30 (world s) = (("", code), w') →
  marker_free ""
  ∧ read_file execute path offset limit s =
      (("", false), Session w' (issued s ++ [read_cmd path offset limit])).
Proof.
  intros H. split; [done|].
  rewrite (read_file_eq _ _ _ _ _ _ _ H). simpl. by rewrite andb_false_r.
Qed.

(** C5, as amended. When the command of a read exits with code 0 and a
    non-empty output, the read reports no error and returns that output
    provided the output holds neither not-found marker; an output that
    holds one is reported as a missing file whatever the exit code, 0 or
    not. *)
Theorem read_success_without_marker path offset limit s output code w' :
  execute (read_cmd path offset limit) 30 (world s) = ((output, code), w') →
  (code = 0 → output ≠ "" → marker_free output →
   read_file execute path offset limit s =
     ((output, false), Session w' (issued s ++ [read_cmd path offset limit])))
  ∧ (¬ marker_free output →
     read_file execute path offset limit s =
       (("File not found: " +:+ path, true),
        Session w' (issued s ++ [read_cmd path offset limit]))).
Proof.
  intros H. rewrite (read_file_eq _ _ _ _ _ _ _ H). unfold marker_free. split.
  - intros -> _ [-> ->]. done.
  - intros Hm.
    destruct (Py.contains no_such_file output) eqn:H1; [done|].
    destruct (Py.contains cannot_open output) eqn:H2; [done|].
    by destruct Hm.
Qed.

Lemma write_cmd_not_mkdir path content d :
  String.eqb (write_cmd path content) (mkdir_cmd d) = false.
Proof. reflexivity. Qed.

(** C9. The result of a write is read off the write command alone: an
    error carrying the raw output exactly when its exit code is not 0,
    otherwise the success message naming the path. What the directory
    creation reports, output and exit code alike, changes nothing: it may
    be replaced by any other answer. *)
Theorem write_file_result path content s :
  (let '((output, code), s2) :=
     _run_command execute (write_cmd path content) 30 (after_mkdir execute path s) in
   write_file execute path content s =
     (if code =? 0 then ("Successfully wrote to " +:+ path, false)
      else ("Error writing file: " +:+ output, true), s2)
   ∧ (snd (fst (write_file execute path content s)) = true ↔ code ≠ 0))
  ∧ ∀ answer,
      fst (write_file (reporting execute (mkdir_cmd (Py.dirname path)) answer)
             path content s)
      = fst (write_file execute path content s).
Proof.
  split.
  - unfold write_file, after_mkdir, bind, ret.
    destruct (String.eqb (Py.dirname path) "") eqn:Hd; simpl.
    + destruct (_run_command execute (write_cmd path content) 30 s)
        as [[output code] s2] eqn:Hw.
      destruct (Z.eqb_spec code 0) as [->|Hc]; simpl; (split; [done|]).
      * split; [done|lia].
      * done.
    + destruct (_run_command execute (mkdir_cmd (Py.dirname path)) 30 s)
        as [r1 s1] eqn:Hm; simpl.
      destruct (_run_command execute (write_cmd path content) 30 s1)
        as [[output code] s2] eqn:Hw.
      destruct (Z.eqb_spec code 0) as [->|Hc]; simpl; (split; [done|]).
      * split; [done|lia].
      * done.
  - intros answer. unfold write_file, bind, ret, _run_command, reporting.
    destruct (String.eqb (Py.dirname path) "") eqn:Hd; simpl.
    + rewrite ?write_cmd_not_mkdir.
      destruct (execute (write_cmd path content) 30 (world s)) as [[output code] w2].
      by destruct (code =? 0).
    + destruct (execute (mkdir_cmd (Py.dirname path)) 30 (world s)) as [r1 w1]; simpl.
      rewrite ?write_cmd_not_mkdir.
      destruct (execute (write_cmd path content) 30 w1) as [[output code] w2].
      by destruct (code =? 0).
Qed.


(** ** Several edits *)

Lemma multi_edit_loop_tolerated path edits : ∀ i acc s,
  tolerated (fst (apply_edits execute path edits s)) →
  multi_edit_loop execute path i edits acc s =
    ((Py.join Py.LF
        (acc ++ imap (fun k r => "Edit " +:+ Py.str (i + Z.of_nat k + 1) +:+ ": " +:+ fst r)
                  (fst (apply_edits execute path edits s))), false),
     snd (apply_edits execute path edits s)).
Proof.
  induction edits as [|[[old new] ra] edits IH]; intros i acc s Hall.
  - simpl. by rewrite app_nil_r.
  - simpl in *. unfold bind.
    destruct (edit_file execute path old new ra s) as [[result is_error] s1] eqn:He.
    destruct (apply_edits execute path edits s1) as [rs s2] eqn:Ha.
    simpl in *. inversion Hall as [|? ? Hr Hrs]; subst.
    unfold fatal in Hr; simpl in Hr. rewrite Hr.
    specialize (IH (i + 1) (acc ++ ["Edit " +:+ Py.str (i + 1) +:+ ": " +:+ result]) s1).
    rewrite Ha in IH. simpl in IH. rewrite IH by done.
    rewrite <- app_assoc. simpl. rewrite Z.add_0_r.
    do 5 f_equal. apply imap_ext. intros k r _. simpl.
    by replace (i + 1 + Z.of_nat k + 1) with (i + Z.of_nat (S k) + 1) by lia.
Qed.

Lemma multi_edit_loop_fatal path pre old new ra post : ∀ i acc s,
  tolerated (fst (apply_edits execute path pre s)) →
  fatal (fst (edit_file execute path old new ra (snd (apply_edits execute path pre s))))
    = true →
  multi_edit_loop execute path i (pre ++ (old, new, ra) :: post) acc s =
    (("Error on edit " +:+ Py.str (i + Z.of_nat (length pre) + 1) +:+ ": "
        +:+ fst (fst (edit_file execute path old new ra
                        (snd (apply_edits execute path pre s)))), true),
     snd (edit_file execute path old new ra (snd (apply_edits execute path pre s)))).
Proof.
  induction pre as [|[[old' new'] ra'] pre IH]; intros i acc s Hall Hfatal.
  - simpl in *. unfold bind.
    destruct (edit_file execute path old new ra s) as [[result is_error] s1] eqn:He.
    unfold fatal in Hfatal; simpl in *. rewrite Hfatal. by rewrite Z.add_0_r.
  - simpl in *. unfold bind.
    destruct (edit_file execute path old' new' ra' s) as [[result is_error] s1] eqn:He.
    destruct (apply_edits execute path pre s1) as [rs s2] eqn:Ha.
    simpl in *. inversion Hall as [|? ? Hr Hrs]; subst.
    unfold fatal in Hr; simpl in Hr. rewrite Hr.
    specialize (IH (i + 1) (acc ++ ["Edit " +:+ Py.str (i + 1) +:+ ": " +:+ result]) s1).
    rewrite Ha in IH. simpl in IH. rewrite IH by done.
    by replace (i + 1 + Z.of_nat (length pre) + 1)
      with (i + Z.pos (Pos.of_succ_nat (length pre)) + 1) by lia.
Qed.

(** C2. [multi_edit_file] applies the edits in order, each through
    [edit_file] on the session the previous one left. If no result is
    fatal (an error without the no-matches marker), every edit is applied
    and the result is the per-edit lines joined by newlines, with no error
    flag; errors that carry the marker are among the lines. If the edits
    before some edit are not fatal and that edit is, the result is the
    aggregate error labelled with its 1-based position, and the session is
    the one that edit left: no later edit is applied. *)
Theorem multi_edit_file_outcome path (edits : list edit) s :
  (tolerated (fst (apply_edits execute path edits s)) →
   multi_edit_file execute path edits s =
     ((Py.join Py.LF (imap edit_line (fst (apply_edits execute path edits s))), false),
      snd (apply_edits execute path edits s)))
  ∧
  (∀ pre old new replace_all post,
     edits = pre ++ (old, new, replace_all) :: post →
     tolerated (fst (apply_edits execute path pre s)) →
     let after_pre := snd (apply_edits execute path pre s) in
     let r := edit_file execute path old new replace_all after_pre in
     fatal (fst r) = true →
     multi_edit_file execute path edits s =
       (("Error on edit " +:+ Py.str (Z.of_nat (length pre) + 1) +:+ ": "
           +:+ fst (fst r), true), snd r)).
Proof.
  split.
  - intros Hall. unfold multi_edit_file.
    by rewrite multi_edit_loop_tolerated.
  - intros pre old new ra post -> Hall after_pre r Hfatal. unfold multi_edit_file.
    by rewrite multi_edit_loop_fatal.
Qed.

(** ** Metadata *)

Lemma metadata_loop_report paths : ∀ acc s,
  fst (metadata_loop execute paths acc s) =
    (Py.join (Py.LF +:+ Py.LF) (acc ++ metadata_blocks execute paths (world s)), false)
  ∧ issued (snd (metadata_loop execute paths acc s)) = issued s ++ (stat_cmd <$> paths).
Proof.
  induction paths as [|p paths IH]; intros acc s.
  - simpl. unfold metadata_blocks. simpl. by rewrite !app_nil_r.
  - simpl. unfold bind, _run_command, metadata_blocks. simpl.
    destruct (execute (stat_cmd p) 30 (world s)) as [[output c] w'] eqn:He.
    destruct (IH (acc ++ [metadata_block p output]) (Session w' (issued s ++ [stat_cmd p])))
      as [IH1 IH2].
    simpl in *. rewrite IH1, IH2. unfold metadata_blocks.
    by rewrite <- !app_assoc.
Qed.






End AnyChannel.

(* ================================================================== *)
(** * The operations, on the reference channel *)
(* ================================================================== *)

Section OnTheShell.

Implicit Types (fs : gmap string string) (path : string).




(** ** Writing then reading *)




(** C6, as amended. For every file, every path the quoting carries and
    every positive offset and limit whose sum is below [2^63] (the
    numbers that the utilities take), provided the lines from [offset] to
    [offset + limit - 1] hold neither not-found marker and none of them is
    a section delimiter of [nl], a read returns exactly these lines,
    numbered from [offset], with no error. *)
Theorem read_range path text offset limit fs log :
  plain_path path → fs !! path = Some text →
  0 < offset → 0 < limit → window offset limit →
  let selected :=
    take (Z.to_nat limit) (drop (Z.to_nat (offset - 1)) (Shell.lines text)) in
  Forall marker_free selected →
  delimiter_free selected →
  read_file Shell.execute path (Some offset) (Some limit) (Session fs log) =
    ((numbered offset selected, false),
     Session fs (log ++ [read_cmd path (Some offset) (Some limit)])).
Proof.
  intros Hp Hfs Ho Hl Hw selected Hm Hd. unfold window in Hw.
  pose proof (execute_read_range path offset limit fs 30 Hp) as E.
  rewrite Hfs in E. specialize (E ltac:(lia) ltac:(lia)).
  rewrite (read_file_eq Shell.execute path (Some offset) (Some limit)
             (Session fs log) _ _ _ E).
  unfold Shell.nl_ba. rewrite lines_head_lines, lines_drop_lines.
  fold selected. rewrite nl_render_numbered by done.
  by destruct (numbered_marker_free offset selected Hm) as [-> ->].
Qed.

End OnTheShell.

(** C8. A probe output without the not-found sentinel is stripped and cut
    into at most five fields, the first four free of whitespace and the
    fifth the rest of the text. With five fields the block of the path shows
    size, type, owner and permissions; with fewer it says that the metadata
    could not be obtained, and the report goes on with the blocks of the
    paths that follow. *)
Theorem metadata_block_fields path output :
  Py.contains not_found output = false →
  let parts := Py.split 4 (Py.strip output) in
  (length parts ≤ 5)%nat
  ∧ Forall field (take 4 parts)
  ∧ ((length parts = 5)%nat →
     ∃ size mtime owner perms filetype,
       parts = [size; mtime; owner; perms; filetype]
       ∧ filetype ≠ EmptyString
       ∧ metadata_block path output =
           path +:+ ":" +:+ Py.LF +:+ "  Size: " +:+ size +:+ " bytes" +:+ Py.LF
             +:+ "  Type: " +:+ filetype +:+ Py.LF +:+ "  Owner: " +:+ owner +:+ Py.LF
             +:+ "  Permissions: " +:+ perms)
  ∧ ((length parts < 5)%nat →
     metadata_block path output = path +:+ ": Unable to get metadata"
     ∧ ∀ (World : Type) (execute : channel World) (rest : list string)
         (s : session World) code w',
         execute (stat_cmd path) 30 (world s) = ((output, code), w') →
         fst (get_metadata execute (path :: rest) s) =
           (Py.join (Py.LF +:+ Py.LF)
              ((path +:+ ": Unable to get metadata")
                 :: metadata_blocks execute (take 9 rest) w'), false)).
Proof.
  intros Hnf parts.
  destruct (split_fields 4 (Py.strip output)) as (Hlen & Hne & Hf).
  fold parts in Hlen, Hne, Hf.
  split; [done|]. split; [done|]. split.
  - intros H5. unfold metadata_block. rewrite Hnf. fold parts.
    destruct parts as [|a [|b [|c [|d [|e [|? ?]]]]]]; simpl in H5; try lia.
    exists a, b, c, d, e. split; [done|]. split; [|done].
    by do 4 apply Forall_cons_1 in Hne as [_ Hne]; apply Forall_cons_1 in Hne as [? _].
  - intros Hlt.
    assert (metadata_block path output = path +:+ ": Unable to get metadata") as Hb.
    { unfold metadata_block. rewrite Hnf. fold parts.
      destruct (Nat.leb_spec 5 (length parts)); [lia|done]. }
    split; [done|]. intros World execute rest s code w' He.
    unfold get_metadata.
    destruct (metadata_loop_report execute (take 10 (path :: rest)) [] s) as [-> _].
    unfold metadata_blocks. simpl. by rewrite He, Hb.
Qed.

(* ================================================================== *)
(** * Concrete runs *)
(* ================================================================== *)

(** C10, at a channel whose commands all fail without output. *)
Lemma read_empty_output_witness :
  read_file silent_failure "notes.txt" None None (Session tt [])
  = (("", false), Session tt [read_cmd "notes.txt" None None]).
Proof.
  apply (read_empty_output_is_success silent_failure "notes.txt" None None
           (Session tt []) 1 tt).
  reflexivity.
Defined.

(** C5 as stated fails: the file holds the words of a marker, the command
    of the read exits with code 0 and a non-empty output, and the read
    reports an error. *)
Lemma read_marker_text_counterexample :
  let fs : gmap string string := {[ "notes.txt" := "cannot open the door" ]} in
  let output := "     1" +:+ Py.TAB +:+ "cannot open the door" +:+ Py.LF in
  Shell.execute (read_cmd "notes.txt" None None) 30 fs = ((output, 0), fs)
  ∧ output ≠ ""
  ∧ read_file Shell.execute "notes.txt" None None (Session fs [])
    = (("File not found: notes.txt", true), Session fs [read_cmd "notes.txt" None None]).
Proof. vm_compute. by split_and!. Qed.

(** C5 as amended: a file without marker text is read with no error; a
    path that holds no file, for which [nl] exits with code 1 and a marker
    in its diagnostic, is reported as not found. *)
Lemma read_success_witness :
  let fs : gmap string string := {[ "notes.txt" := "open the door" ]} in
  read_file Shell.execute "notes.txt" None None (Session fs [])
  = (("     1" +:+ Py.TAB +:+ "open the door" +:+ Py.LF, false),
     Session fs [read_cmd "notes.txt" None None])
  ∧ Shell.execute (read_cmd "gone.txt" None None) 30 fs
    = (("nl: gone.txt: No such file or directory" +:+ Py.LF, 1), fs)
  ∧ read_file Shell.execute "gone.txt" None None (Session fs [])
    = (("File not found: gone.txt", true), Session fs [read_cmd "gone.txt" None None]).
Proof.
  cbv zeta. split; [|split; [vm_compute; reflexivity|]].
  - pose proof (read_success_without_marker Shell.execute "notes.txt" None None
                  (Session {[ "notes.txt" := "open the door" ]} [])
                  ("     1" +:+ Py.TAB +:+ "open the door" +:+ Py.LF) 0
                  {[ "notes.txt" := "open the door" ]}) as H.
    destruct H as [H _]; [vm_compute; reflexivity|].
    apply H; [reflexivity|discriminate|split; vm_compute; reflexivity].
  - pose proof (read_success_without_marker Shell.execute "gone.txt" None None
                  (Session {[ "notes.txt" := "open the door" ]} [])
                  ("nl: gone.txt: No such file or directory" +:+ Py.LF) 1
                  {[ "notes.txt" := "open the door" ]}) as H.
    destruct H as [_ H]; [vm_compute; reflexivity|].
    apply H. intros [H1 _]. vm_compute in H1. discriminate H1.
Defined.


(** A line that is a section delimiter of [nl] is printed empty, and the
    numbering starts again after it. *)
Example nl_section_delimiter :
  Shell.nl_ba 1 ("a" +:+ Py.LF +:+ "\:\:" +:+ Py.LF +:+ "b" +:+ Py.LF)
  = "     1" +:+ Py.TAB +:+ "a" +:+ Py.LF +:+ Py.LF
      +:+ "     1" +:+ Py.TAB +:+ "b" +:+ Py.LF.
Proof. reflexivity. Qed.


(** C6 as stated fails: line 6 of the twenty holds the words of a marker,
    and the read of lines 5 to 7 reports a missing file. *)
Lemma read_range_marker_counterexample :
  let text := sample_text (<[5%nat := "cannot open"]> twenty_lines) in
  let fs : gmap string string := {[ "notes.txt" := text ]} in
  length (Shell.lines text) = 20%nat
  ∧ fst (read_file Shell.execute "notes.txt" (Some 5) (Some 3) (Session fs []))
    = ("File not found: notes.txt", true)
  ∧ fst (read_file Shell.execute "notes.txt" (Some 5) (Some 3) (Session fs []))
    ≠ (numbered 5 ["line 5"; "cannot open"; "line 7"], false).
Proof. vm_compute. by split_and!. Qed.

(** C6 as amended, on the twenty lines: lines 5 to 7, numbered 5, 6, 7. *)
Lemma read_range_witness :
  let fs : gmap string string := {[ "notes.txt" := sample_text twenty_lines ]} in
  read_file Shell.execute "notes.txt" (Some 5) (Some 3) (Session fs [])
  = ((numbered 5 ["line 5"; "line 6"; "line 7"], false),
     Session fs [read_cmd "notes.txt" (Some 5) (Some 3)]).
Proof.
  apply (read_range "notes.txt" (sample_text twenty_lines) 5 3
           {[ "notes.txt" := sample_text twenty_lines ]} []).
  - split; reflexivity.
  - reflexivity.
  - lia.
  - lia.
  - unfold window. lia.
  - repeat constructor.
  - repeat constructor.
Defined.


(** C2: three edits of which none is fatal, the second on a text the file
    does not hold; two edits of a missing file, fatal at the first; and two
    edits whose errors carry the no-matches marker (in the name of the
    missing file), both reported and neither fatal. *)
Lemma multi_edit_file_outcome_witness :
  let fs : gmap string string := {[ "notes.txt" := "a.b and a.b" +:+ Py.LF ]} in
  multi_edit_file Shell.execute "notes.txt"
    [("a.b", "c", false); ("zzz", "y", true); ("and", "&", true)] (Session fs [])
  = ((Py.join Py.LF
        ["Edit 1: Successfully replaced first occurrence in notes.txt";
         "Edit 2: Successfully replaced all occurrences in notes.txt";
         "Edit 3: Successfully replaced all occurrences in notes.txt"], false),
     snd (apply_edits Shell.execute "notes.txt"
            [("a.b", "c", false); ("zzz", "y", true); ("and", "&", true)]
            (Session fs [])))
  ∧ world (snd (multi_edit_file Shell.execute "notes.txt"
                  [("a.b", "c", false); ("zzz", "y", true); ("and", "&", true)]
                  (Session fs []))) !! "notes.txt"
    = Some ("c & a.b" +:+ Py.LF)
  ∧ multi_edit_file Shell.execute "notes.txt"
      [("a.b", "c", false); ("zzz", "y", true)] (Session ∅ [])
    = (("Error on edit 1: File not found: notes.txt", true),
       Session ∅ [probe_cmd "notes.txt"])
  ∧ fst (multi_edit_file Shell.execute "No matches found.txt"
           [("a.b", "c", false); ("zzz", "y", true)] (Session ∅ []))
    = (Py.join Py.LF
         ["Edit 1: File not found: No matches found.txt";
          "Edit 2: File not found: No matches found.txt"], false).
Proof.
  split; [|split; [|split]].
  - etrans.
    + apply (proj1 (multi_edit_file_outcome Shell.execute "notes.txt"
                      [("a.b", "c", false); ("zzz", "y", true); ("and", "&", true)]
                      (Session {[ "notes.txt" := "a.b and a.b" +:+ Py.LF ]} []))).
      vm_compute. repeat constructor.
    + vm_compute. reflexivity.
  - vm_compute. reflexivity.
  - etrans.
    + apply (proj2 (multi_edit_file_outcome Shell.execute "notes.txt"
                      [("a.b", "c", false); ("zzz", "y", true)] (Session ∅ []))
               [] "a.b" "c" false [("zzz", "y", true)]).
      * reflexivity.
      * constructor.
      * vm_compute. reflexivity.
    + vm_compute. reflexivity.
  - rewrite (proj1 (multi_edit_file_outcome Shell.execute "No matches found.txt"
                      [("a.b", "c", false); ("zzz", "y", true)] (Session ∅ []))).
    + vm_compute. reflexivity.
    + vm_compute. repeat constructor.
Defined.




(** C8: a probe output of five fields, the last with spaces in it; an
    output whose fields are set apart by a no-break space; and an output
    of one field, for which the block tells that the metadata could not be
    obtained. *)
Lemma metadata_block_fields_witness :
  let output := "  120 1700000000 root:root 644 ASCII text, with very long lines" +:+ Py.LF in
  Py.split 4 (Py.strip output)
  = ["120"; "1700000000"; "root:root"; "644"; "ASCII text, with very long lines"]
  ∧ (length (Py.split 4 (Py.strip output)) ≤ 5)%nat
  ∧ Forall field (take 4 (Py.split 4 (Py.strip output)))
  ∧ Py.split 4 (Py.strip ("1 2 3 4" +:+ no_break_space +:+ "5" +:+ Py.LF))
    = ["1"; "2"; "3"; "4"; "5"]
  ∧ Py.split 4 (Py.strip ("unknown" +:+ Py.LF)) = ["unknown"]
  ∧ metadata_block "notes.txt" ("unknown" +:+ Py.LF)
    = "notes.txt: Unable to get metadata".
Proof.
  cbv zeta. split; [reflexivity|].
  pose proof (metadata_block_fields "notes.txt"
                ("  120 1700000000 root:root 644 ASCII text, with very long lines"
                   +:+ Py.LF)) as H.
  destruct H as (H1 & H2 & _); [reflexivity|]. split; [exact H1|]. split; [exact H2|].
  split; [reflexivity|]. split; [reflexivity|].
  pose proof (metadata_block_fields "notes.txt" ("unknown" +:+ Py.LF)) as H.
  destruct H as (_ & _ & _ & H4); [reflexivity|].
  apply H4. vm_compute. lia.
Defined.

(* ================================================================== *)
(** * Further facts about the texts *)
(* ================================================================== *)

Section MoreBase64.

Lemma b64encode_length s :
  String.length (Base64.b64encode s) = (4 * ((String.length s + 2) / 3))%nat.
Proof.
  induction s as [|a|a b|a b c rest IH] using string_triples; try reflexivity.
  assert (∃ c1 c2 c3 c4, Base64.b64encode (String a (String b (String c rest)))
            = String c1 (String c2 (String c3 (String c4 (Base64.b64encode rest)))))
    as (c1 & c2 & c3 & c4 & ->) by (by do 4 eexists).
  cbn [String.length]. rewrite IH.
  replace (S (S (S (String.length rest))) + 2)%nat
    with (1 * 3 + (String.length rest + 2))%nat by lia.
  rewrite Nat.div_add_l by lia. lia.
Qed.

End MoreBase64.

Section MoreEscaping.

Lemma unescape_escape_each s : unescape (escape_each s) = s.
Proof.
  induction s as [|c s IH]; [done|]. cbn [escape_each].
  destruct (Shell.special c) eqn:Hs.
  - cbn [unescape]. simpl Ascii.eqb. cbv iota. by rewrite IH.
  - cbn [unescape]. destruct (Ascii.eqb_spec c "\") as [->|_]; [done|].
    by rewrite IH.
Qed.

Lemma escape_each_length s :
  (String.length s ≤ String.length (escape_each s) ≤ 2 * String.length s)%nat.
Proof.
  induction s as [|c s IH]; [simpl; lia|]. cbn [escape_each].
  destruct (Shell.special c); simpl; lia.
Qed.

Lemma escape_each_inert s :
  Forall (fun c => Shell.special c = false) (list_ascii_of_string s) →
  escape_each s = s.
Proof.
  induction s as [|c s IH]; [done|]. intros H.
  inversion H as [|? ? Hc Hs]; subst. cbn [escape_each]. rewrite Hc. by rewrite IH.
Qed.

End MoreEscaping.

Section MoreStrings.

Implicit Types (s t m : string) (c x : ascii).



(** A text whose first character is not in [s] starts no earlier than
    after [s]. *)
Lemma contains_past x m s t :
  absent x s → Py.contains (String x m) (s +:+ t) = Py.contains (String x m) t.
Proof.
  induction s as [|c s IH]; [done|]. intros [Hc Hs]%absent_cons.
  simpl String.append. cbn [Py.contains].
  by rewrite prefix_cons, (Ascii.eqb_sym x c), Hc, IH.
Qed.

End MoreStrings.

Section MoreDirname.

Lemma upto_last_slash_bare p : absent "/" p → Py.upto_last_slash p = "".
Proof.
  induction p as [|c p IH]; [done|]. intros [Hc Hp]%absent_cons.
  cbn [Py.upto_last_slash]. rewrite IH by done.
  change Py.slash with "/"%char. by rewrite Hc.
Qed.

Lemma upto_last_slash_join d f :
  absent "/" f → Py.upto_last_slash (d +:+ "/" +:+ f) = d +:+ "/".
Proof.
  intros Hf. induction d as [|c d IH].
  - simpl String.append. cbn [Py.upto_last_slash]. by rewrite upto_last_slash_bare.
  - simpl String.append in *. cbn [Py.upto_last_slash]. rewrite IH.
    by destruct d.
Qed.

Lemma rstrip_slash_snoc s : Py.rstrip_slash (s +:+ "/") = Py.rstrip_slash s.
Proof.
  induction s as [|c s IH]; [done|]. simpl String.append.
  cbn [Py.rstrip_slash]. by rewrite IH.
Qed.

Lemma all_slashes_rstrip s : Py.all_slashes s = true → Py.rstrip_slash s = "".
Proof.
  induction s as [|c s IH]; [done|]. cbn [Py.all_slashes Py.rstrip_slash].
  intros [Hc Hs]%andb_true_iff. by rewrite IH, Hc.
Qed.

Lemma all_slashes_snoc s : Py.all_slashes (s +:+ "/") = Py.all_slashes s.
Proof.
  induction s as [|c s IH]; [done|]. simpl String.append.
  cbn [Py.all_slashes]. by rewrite IH.
Qed.

(** A path without a slash has no directory part. *)
Lemma dirname_bare p : absent "/" p → Py.dirname p = "".
Proof. intros Hp. unfold Py.dirname. by rewrite upto_last_slash_bare. Qed.

(** The directory part of [d/f] is [d], for a [d] that does not end in a
    slash and a file name [f]. *)
Lemma dirname_join d f :
  d ≠ "" → Py.rstrip_slash d = d → absent "/" f →
  Py.dirname (d +:+ "/" +:+ f) = d.
Proof.
  intros Hd Hr Hf. unfold Py.dirname. rewrite upto_last_slash_join by done.
  rewrite all_slashes_snoc, rstrip_slash_snoc, Hr.
  destruct (Py.all_slashes d) eqn:Ha.
  - apply all_slashes_rstrip in Ha. congruence.
  - by destruct d.
Qed.

End MoreDirname.

Section MoreSplitting.

Implicit Types (s f sep : string).






















End MoreSplitting.

(* ================================================================== *)
(** * Further facts about lines and the reference channel *)
(* ================================================================== *)

Arguments Shell.head_missing : simpl never.

Section MoreLines.











End MoreLines.

Section MoreReplacing.

Implicit Types (old new s t l : string) (ls : list string).




Lemma length_skip n : ∀ s, (String.length (Shell.skip n s) ≤ String.length s)%nat.
Proof.
  induction n as [|n IH]; intros [|c s]; simpl; try lia.
  specialize (IH s). lia.
Qed.



















End MoreReplacing.

Section MoreShellFacts.

Implicit Types (fs : gmap string string) (path : string).




Lemma read_head_words path limit :
  read_cmd path None (Some limit) =
    render [Arg [Bare ["head"]]; Arg [Bare ["-n"]]; Arg [Bare [Py.str limit]];
            Arg [Quoted [path]]; Op "2>&1"; Op "|";
            Arg [Bare ["nl"]]; Arg [Bare ["-ba"]]].
Proof. reflexivity. Qed.


(** No command of a read writes to the file system. *)
Lemma execute_read_keeps path offset limit fs timeout :
  quotable path →
  snd (Shell.execute (read_cmd path offset limit) timeout fs) = fs.
Proof.
  intros Hq. unfold Shell.execute, Shell.run.
  destruct limit as [limit|]; [destruct offset as [offset|]|].
  - rewrite read_range_words, lex_render by words_ok.
    simpl. rewrite ?append_nil_r.
    unfold Shell.run_stage, Shell.utility, Shell.tail, Shell.head, Shell.nl. simpl.
    unfold Shell.parse_count, Shell.parse_number. rewrite !str_parse.
    cbn [mbind option_bind].
    unfold Shell.on_input, Shell.input.
    destruct (_ && _), (_ && _), (_ && _), (Shell.operand path), (fs !! path);
      reflexivity.
  - rewrite read_head_words, lex_render by words_ok.
    simpl. rewrite ?append_nil_r.
    unfold Shell.run_stage, Shell.utility, Shell.head, Shell.nl. simpl.
    unfold Shell.parse_count. rewrite !str_parse. cbn [mbind option_bind].
    unfold Shell.on_input, Shell.input.
    destruct (_ && _), (Shell.operand path), (fs !! path); reflexivity.
  - assert (read_cmd path offset None = read_cmd path None None) as ->
      by by destruct offset.
    rewrite read_all_words, lex_render by words_ok.
    simpl. rewrite ?append_nil_r.
    unfold Shell.run_stage, Shell.utility, Shell.nl. simpl.
    unfold Shell.on_input, Shell.input.
    destruct (String.eqb path "-v"), (Shell.operand path), (fs !! path); reflexivity.
Qed.

End MoreShellFacts.

(* ================================================================== *)
(** * Further properties, over any channel *)
(* ================================================================== *)

Section MoreAnyChannel.

Context {World : Type} (execute : channel World).

Implicit Types (s : session World) (path : string).

(** X1. [write_file] asks for the parent directory exactly when the path
    has a directory part: for a bare file name the write command is the
    only command sent; for [d/f] the command [mkdir -p 'd'] is sent first
    and the write command next, whatever the directory creation answers. *)
Theorem write_file_commands path content s :
  (absent "/" path →
   issued (snd (write_file execute path content s))
     = issued s ++ [write_cmd path content])
  ∧ (∀ d f,
       path = d +:+ "/" +:+ f → d ≠ "" → Py.rstrip_slash d = d → absent "/" f →
       issued (snd (write_file execute path content s))
         = issued s ++ [mkdir_cmd d; write_cmd path content]).
Proof.
  split.
  - intros Hp. unfold write_file, bind, ret, _run_command.
    rewrite dirname_bare by done. simpl.
    destruct (execute (write_cmd path content) 30 (world s)) as [[output code] w2].
    by destruct (code =? 0).
  - intros d f -> Hd Hr Hf. unfold write_file, bind, ret.
    rewrite dirname_join by done.
    destruct (String.eqb_spec d "") as [|_]; [done|]. cbn [negb].
    destruct (execute (mkdir_cmd d) 30 (world s)) as [r1 w1] eqn:E1.
    rewrite (run_command_eq _ _ _ _ _ _ E1). cbv beta iota zeta.
    destruct (execute (write_cmd (d +:+ "/" +:+ f) content) 30 w1)
      as [[output code] w2] eqn:E2.
    rewrite (run_command_eq _ _ _ (Session _ _) _ _ E2). cbv beta iota zeta.
    cbn [issued]. destruct (code =? 0); cbn [negb snd issued];
      by rewrite <- app_assoc.
Qed.

(** X2. When the command of a read exits with a code other than 0 and a
    non-empty output without not-found marker, the read returns the error
    ["Error reading file: "] followed by that output. *)
Theorem read_file_command_failure path offset limit s output code w' :
  execute (read_cmd path offset limit) 30 (world s) = ((output, code), w') →
  code ≠ 0 → output ≠ "" → marker_free output →
  read_file execute path offset limit s =
    (("Error reading file: " +:+ output, true),
     Session w' (issued s ++ [read_cmd path offset limit])).
Proof.
  intros H Hc Ho [H1 H2]. rewrite (read_file_eq _ _ _ _ _ _ _ _ H), H1, H2.
  destruct (Z.eqb_spec code 0); [done|].
  by destruct (String.eqb_spec output "").
Qed.

(** X3. Once the probe of an edit has succeeded, exactly four commands
    have been sent when the edit returns: the probe, the second backup, the
    substitution and the removal of the backup, in this order. The backup
    is removed whether the substitution succeeded or not, and what the
    backup and the removal answer plays no part: the result is the error
    ["Error editing file: "] with the output of the substitution when its
    exit code is not 0, and the success message otherwise. *)
Theorem edit_file_after_probe path old new replace_all s
    out1 w1 r2 w2 output code w3 r4 w4 :
  execute (probe_cmd path) 30 (world s) = ((out1, 0), w1) →
  Py.contains no_such_file out1 = false →
  execute (backup_cmd path) 30 w1 = (r2, w2) →
  execute (sed_cmd path old new replace_all) 30 w2 = ((output, code), w3) →
  execute (cleanup_cmd path) 30 w3 = (r4, w4) →
  edit_file execute path old new replace_all s =
    ((if code =? 0
      then ("Successfully replaced "
              +:+ (if replace_all then "all occurrences" else "first occurrence")
              +:+ " in " +:+ path, false)
      else ("Error editing file: " +:+ output, true)),
     Session w4 (issued s ++ [probe_cmd path; backup_cmd path;
                              sed_cmd path old new replace_all; cleanup_cmd path])).
Proof.
  intros E1 Hm E2 E3 E4. unfold edit_file, bind.
  rewrite (run_command_eq _ _ _ _ _ _ E1). cbv beta iota zeta. rewrite Hm.
  change (false || negb (0 =? 0)) with false. cbv beta iota zeta.
  rewrite (run_command_eq _ _ _ (Session _ _) _ _ E2). cbv beta iota zeta.
  rewrite (run_command_eq _ _ _ (Session _ _) _ _ E3). cbv beta iota zeta.
  rewrite (run_command_eq _ _ _ (Session _ _) _ _ E4). cbv beta iota zeta.
  unfold ret. cbn [issued]. rewrite <- !app_assoc.
  by destruct (code =? 0).
Qed.

Lemma edit_file_message path old new replace_all s :
  let r := fst (edit_file execute path old new replace_all s) in
  snd r = true →
  fst r = "File not found: " +:+ path
  ∨ ∃ cmd w, fst r = "Error editing file: " +:+ fst (fst (execute cmd 30 w)).
Proof.
  unfold edit_file, bind, _run_command, ret.
  destruct (execute (probe_cmd path) 30 (world s)) as [[out1 c1] w1].
  destruct (_ || _); [by left|]. simpl.
  destruct (execute (backup_cmd path) 30 w1) as [r2 w2]. simpl.
  destruct (execute (sed_cmd path old new replace_all) 30 w2)
    as [[output code] w3] eqn:E3. simpl.
  destruct (execute (cleanup_cmd path) 30 w3) as [r4 w4]. simpl.
  destruct (code =? 0); simpl; [done|]. intros _. right.
  exists (sed_cmd path old new replace_all), w2. by rewrite E3.
Qed.

(** X4. [edit_file] writes no message with the no-matches marker of its
    own: when neither the path nor any output of the channel holds the
    words ["No matches found"], every error of an edit is fatal to
    [multi_edit_file], and a list of edits is reported without error only
    if every edit of it succeeded. *)
Theorem edit_error_is_fatal path :
  Py.contains no_matches path = false →
  (∀ cmd w, Py.contains no_matches (fst (fst (execute cmd 30 w))) = false) →
  (∀ old new replace_all s,
     let r := fst (edit_file execute path old new replace_all s) in
     fatal r = snd r)
  ∧ (∀ edits s,
       snd (fst (multi_edit_file execute path edits s)) = false →
       Forall (fun r => snd r = false) (fst (apply_edits execute path edits s))).
Proof.
  intros Hp Hout.
  assert (∀ old new replace_all s,
            let r := fst (edit_file execute path old new replace_all s) in
            fatal r = snd r) as Hfatal.
  { intros old new ra s r.
    pose proof (edit_file_message path old new ra s) as Hm. cbv zeta in Hm.
    fold r in Hm. unfold fatal. destruct (snd r); [|done].
    destruct (Hm eq_refl) as [E|(cmd & w & E)]; rewrite E; unfold no_matches in *.
    - by rewrite (contains_past "N" _ "File not found: "), Hp
        by (by repeat constructor).
    - by rewrite (contains_past "N" _ "Error editing file: "), Hout
        by (by repeat constructor). }
  split; [done|]. unfold multi_edit_file. generalize 0 (@nil string).
  intros i acc edits. revert i acc.
  induction edits as [|[[old new] ra] edits IH]; intros i acc s; [constructor|].
  cbn [multi_edit_loop apply_edits]. unfold bind.
  pose proof (Hfatal old new ra s) as Hf. cbv zeta in Hf. unfold fatal in Hf.
  destruct (edit_file execute path old new ra s) as [[result is_error] s1] eqn:He.
  simpl in Hf. rewrite Hf.
  destruct is_error; [done|]. intros H. specialize (IH _ _ _ H).
  destruct (apply_edits execute path edits s1) as [rs s2]. by constructor.
Qed.

Lemma metadata_loop_ignores_codes c paths : ∀ acc s,
  metadata_loop (with_code execute c) paths acc s = metadata_loop execute paths acc s.
Proof.
  induction paths as [|p paths IH]; intros acc s; [done|].
  cbn [metadata_loop]. unfold bind, _run_command, with_code.
  destruct (execute (stat_cmd p) 30 (world s)) as [[output code] w']. apply IH.
Qed.

(** X5. [get_metadata] never looks at an exit code: with every exit code
    of the channel replaced by any other, the report, the error flag and
    the commands sent are the same. *)
Theorem get_metadata_ignores_exit_codes (paths : list string) s c :
  get_metadata (with_code execute c) paths s = get_metadata execute paths s.
Proof. apply metadata_loop_ignores_codes. Qed.

(** X6. Every command is sent with the timeout of 30 seconds: a channel
    that serves only the commands given 30 seconds, and gives up on every
    other, does for the five operations what the channel itself does. *)
Theorem operations_wait_30_seconds path s :
  (∀ offset limit,
     read_file (patient execute) path offset limit s
       = read_file execute path offset limit s)
  ∧ (∀ content,
       write_file (patient execute) path content s
         = write_file execute path content s)
  ∧ (∀ old new replace_all,
       edit_file (patient execute) path old new replace_all s
         = edit_file execute path old new replace_all s)
  ∧ (∀ edits,
       multi_edit_file (patient execute) path edits s
         = multi_edit_file execute path edits s)
  ∧ (∀ paths,
       get_metadata (patient execute) paths s = get_metadata execute paths s).
Proof.
  by split_and!.
Qed.

End MoreAnyChannel.



(* ================================================================== *)
(** * Further properties, on the reference channel *)
(* ================================================================== *)

Section MoreOnTheShell.

Implicit Types (fs : gmap string string) (path : string).





(** X12. On the reference shell a read changes no file: whatever the
    offset and the limit, whether the file exists or not and whatever the
    outcome, the file system after the read is the one before it, for
    every path without a single quote. *)
Theorem read_file_changes_nothing path offset limit fs log :
  quotable path →
  world (snd (read_file Shell.execute path offset limit (Session fs log))) = fs.
Proof.
  intros Hq. pose proof (execute_read_keeps path offset limit fs 30 Hq) as Hk.
  destruct (Shell.execute (read_cmd path offset limit) 30 fs)
    as [[output code] fs'] eqn:E. simpl in Hk. subst fs'.
  rewrite (read_file_eq Shell.execute path offset limit (Session fs log) _ _ _ E).
  done.
Qed.







End MoreOnTheShell.

Section MoreTransport.

(** X18. The encoding that [write_file] puts into its command decodes to
    the content, byte for byte, for every content; it is made of the
    letters, the digits, [+], [/] and [=] only, hence holds no quote and
    no line break, and is four characters long for every three bytes of
    the UTF-8 encoding of the content, rounded up (the length counted
    here is the number of these bytes, not the number of characters of
    the [str]). *)
Theorem b64encode_transport content :
  Base64.b64decode (Base64.b64encode content) = Some content
  ∧ Forall (fun c => b64char c = true)
      (list_ascii_of_string (Base64.b64encode content))
  ∧ quotable (Base64.b64encode content)
  ∧ absent "010" (Base64.b64encode content)
  ∧ String.length (Base64.b64encode content)
      = (4 * ((String.length content + 2) / 3))%nat.
Proof.
  split_and!.
  - apply b64decode_b64encode.
  - apply b64encode_chars.
  - apply b64encode_quotable.
  - apply b64encode_absent. intros x Hx.
    by destruct (b64char_inert x Hx) as (? & ? & ? & ?).
  - apply b64encode_length.
Qed.

(** X19. [escape_for_sed] loses nothing: dropping the backslash before
    each escaped character gives the text back, so that two texts with the
    same escaped form are equal. The escaped form is at least as long as
    the text and at most twice as long, is the text itself when the text
    holds none of the nine characters, and the escaped form of two texts
    side by side is their escaped forms side by side. *)
Theorem escape_for_sed_reversible s :
  unescape (escape_for_sed s) = s
  ∧ (∀ t, escape_for_sed s = escape_for_sed t → s = t)
  ∧ (String.length s ≤ String.length (escape_for_sed s) ≤ 2 * String.length s)%nat
  ∧ (Forall (fun c => Shell.special c = false) (list_ascii_of_string s) →
     escape_for_sed s = s)
  ∧ (∀ t, escape_for_sed (s +:+ t) = escape_for_sed s +:+ escape_for_sed t).
Proof.
  split_and!.
  - by rewrite escape_for_sed_each, unescape_escape_each.
  - intros t H. apply (f_equal unescape) in H.
    by rewrite !escape_for_sed_each, !unescape_escape_each in H.
  - rewrite escape_for_sed_each. apply escape_each_length.
  - rewrite escape_for_sed_each. apply escape_each_length.
  - intros H. rewrite escape_for_sed_each. by apply escape_each_inert.
  - apply escape_for_sed_app.
Qed.


End MoreTransport.

Section MoreSed.

Implicit Types (fs : gmap string string) (path : string).





End MoreSed.




(* ================================================================== *)
(** * Further concrete runs *)
(* ================================================================== *)

(** X1, for a bare file name and for a path two directories down. *)
Lemma write_file_commands_witness :
  issued (snd (write_file Shell.execute "notes.txt" "text" (Session ∅ [])))
    = [write_cmd "notes.txt" "text"]
  ∧ issued (snd (write_file Shell.execute "dir/sub/notes.txt" "text" (Session ∅ [])))
    = [mkdir_cmd "dir/sub"; write_cmd "dir/sub/notes.txt" "text"].
Proof.
  split.
  - apply (proj1 (write_file_commands Shell.execute "notes.txt" "text" (Session ∅ []))).
    by repeat constructor.
  - apply (proj2 (write_file_commands Shell.execute "dir/sub/notes.txt" "text"
                    (Session ∅ [])) "dir/sub" "notes.txt").
    + reflexivity.
    + discriminate.
    + reflexivity.
    + by repeat constructor.
Defined.

(** X2, at a channel that refuses every command. *)
Lemma read_file_command_failure_witness :
  read_file denied "notes.txt" None None (Session tt [])
  = (("Error reading file: Permission denied", true),
     Session tt [read_cmd "notes.txt" None None]).
Proof.
  apply (read_file_command_failure denied "notes.txt" None None (Session tt [])
           "Permission denied" 1 tt).
  - reflexivity.
  - lia.
  - discriminate.
  - split; reflexivity.
Defined.

(** X3, on the reference shell with the answer of the substitution
    replaced by a failure: the four commands are sent, the error carries
    the output of the substitution, and no backup is left. *)
Lemma edit_file_after_probe_witness :
  let failing :=
    reporting Shell.execute (sed_cmd "notes.txt" "a" "b" true)
      ("sed: couldn't open temporary file", 4) in
  let fs : gmap string string := {[ "notes.txt" := "a" ]} in
  edit_file failing "notes.txt" "a" "b" true (Session fs [])
  = (("Error editing file: sed: couldn't open temporary file", true),
     Session {[ "notes.txt" := "b" ]}
       [probe_cmd "notes.txt"; backup_cmd "notes.txt";
        sed_cmd "notes.txt" "a" "b" true; cleanup_cmd "notes.txt"]).
Proof.
  cbv zeta. etrans.
  - eapply (edit_file_after_probe
              (reporting Shell.execute (sed_cmd "notes.txt" "a" "b" true)
                 ("sed: couldn't open temporary file", 4))
              "notes.txt" "a" "b" true (Session {[ "notes.txt" := "a" ]} []));
      vm_compute; reflexivity.
  - vm_compute. reflexivity.
Defined.

(** X4, at a channel whose commands all fail without output. *)
Lemma edit_error_is_fatal_witness :
  fatal (fst (edit_file silent_failure "notes.txt" "a" "b" false (Session tt [])))
  = snd (fst (edit_file silent_failure "notes.txt" "a" "b" false (Session tt []))).
Proof.
  apply (proj1 (edit_error_is_fatal silent_failure "notes.txt" eq_refl
                  (fun _ _ => eq_refl))).
Defined.





(** X12, on a path with a space and a dollar in it. *)
Lemma read_file_changes_nothing_witness :
  let fs : gmap string string := {[ "my $file.txt" := "text" ]} in
  world (snd (read_file Shell.execute "my $file.txt" (Some 1) (Some 1) (Session fs [])))
  = fs.
Proof.
  apply (read_file_changes_nothing "my $file.txt" (Some 1) (Some 1)
           {[ "my $file.txt" := "text" ]} []).
  reflexivity.
Defined.






